(** * AI-Car-Catalog-DB: the extraction pipeline, its progress tracker and the
    catalog store, embedded in Rocq.

    Sources: [App.tsx] (the orchestrator: [handleFileChange],
    [handleExtractData], [handleUrlSubmit], [handleSelectCatalog]),
    [services/geminiService.ts] ([generateSummary]),
    [services/webScraperService.ts] ([fetchWebPageContent]), the IndexedDB
    store [db.ts] and the Firestore store that [App.tsx] imports as [./db].

    JavaScript strings are lists of UTF-16 code units ([jsstr]); the Japanese
    messages of the source are written out as code units, with the text in the
    comment above each. The external capabilities (the AI model, the PDF
    renderer, the web proxy, blob storage, the id generators of the stores)
    are the fields of a record [Env], so every theorem holds for all of them. *)

From Stdlib Require Import ZArith List Lia.
From stdpp Require Import base list gmap sorting.
Import ListNotations.
Open Scope Z_scope.

(* ------------------------------------------------------------------ *)
(** ** JavaScript strings *)

Abbreviation jsstr := (list Z).

(** Truthiness of a string: the empty string is falsy, every other string
    truthy. *)
Definition truthy (s : jsstr) : bool :=
  match s with [] => false | _ => true end.

(** The code units [String.prototype.trim] removes: WhiteSpace and
    LineTerminator of ECMA-262 (TAB, LF, VT, FF, CR, SP, NBSP, U+1680,
    U+2000..U+200A, LS, PS, U+202F, U+205F, U+3000, BOM). *)
Definition is_js_space (c : Z) : bool :=
  (c =? 9) || (c =? 10) || (c =? 11) || (c =? 12) || (c =? 13) || (c =? 32)
  || (c =? 160) || (c =? 5760) || ((8192 <=? c) && (c <=? 8202))
  || (c =? 8232) || (c =? 8233) || (c =? 8239) || (c =? 8287)
  || (c =? 12288) || (c =? 65279).

Fixpoint drop_leading_space (s : jsstr) : jsstr :=
  match s with
  | [] => []
  | c :: r => if is_js_space c then drop_leading_space r else s
  end.

(** [String.prototype.trim]. *)
Definition trim (s : jsstr) : jsstr :=
  rev (drop_leading_space (rev (drop_leading_space s))).

(** [String.prototype.includes]. *)
Fixpoint starts_with (pre s : jsstr) : bool :=
  match pre, s with
  | [], _ => true
  | p :: pr, c :: r => (p =? c) && starts_with pr r
  | _ :: _, [] => false
  end.

Fixpoint includes (s pat : jsstr) : bool :=
  starts_with pat s || match s with [] => false | _ :: r => includes r pat end.

(** [Array.prototype.join('\n')]. *)
Definition join_nl (l : list jsstr) : jsstr :=
  match l with
  | [] => []
  | x :: r => x ++ concat (map (fun s => 10 :: s) r)
  end.

(** Decimal rendering of a (non-negative, integral) number, as in a template
    literal [`${n}`]. *)
Fixpoint digits_aux (fuel : nat) (n : Z) (acc : jsstr) : jsstr :=
  match fuel with
  | O => acc
  | S f =>
      let acc' := (48 + n mod 10) :: acc in
      if n <? 10 then acc' else digits_aux f (n / 10) acc'
  end.

Definition number_to_string (n : Z) : jsstr :=
  if n <? 0 then 45 :: digits_aux 40 (- n) [] else digits_aux 40 n [].

(** Messages of the source. *)

(** [PDFから画像が抽出できませんでした。] *)
Definition msg_no_images : jsstr :=
  [80; 68; 70; 12363; 12425; 30011; 20687; 12364; 25277; 20986; 12391; 12365; 12414; 12379; 12435; 12391; 12375; 12383; 12290].
(** [AIによるテキスト抽出中に不明なエラーが発生しました。] *)
Definition msg_text_unknown : jsstr :=
  [65; 73; 12395; 12424; 12427; 12486; 12461; 12473; 12488; 25277; 20986; 20013; 12395; 19981; 26126; 12394; 12456; 12521; 12540; 12364; 30330; 29983; 12375; 12414; 12375; 12383; 12290].
(** [AIによる構造化データ抽出中に不明なエラーが発生しました。] *)
Definition msg_json_unknown : jsstr :=
  [65; 73; 12395; 12424; 12427; 27083; 36896; 21270; 12487; 12540; 12479; 25277; 20986; 20013; 12395; 19981; 26126; 12394; 12456; 12521; 12540; 12364; 30330; 29983; 12375; 12414; 12375; 12383; 12290].
(** [データ抽出中に予期せぬエラーが発生しました。] *)
Definition msg_extract_unexpected : jsstr :=
  [12487; 12540; 12479; 25277; 20986; 20013; 12395; 20104; 26399; 12379; 12396; 12456; 12521; 12540; 12364; 30330; 29983; 12375; 12414; 12375; 12383; 12290].
(** [AIはカタログから有効なデータを抽出できませんでした。] *)
Definition msg_nothing_extracted : jsstr :=
  [65; 73; 12399; 12459; 12479; 12525; 12464; 12363; 12425; 26377; 21177; 12394; 12487; 12540; 12479; 12434; 25277; 20986; 12391; 12365; 12414; 12379; 12435; 12391; 12375; 12383; 12290].
(** [データベースへの保存に失敗しました。] *)
Definition msg_db_save_failed : jsstr :=
  [12487; 12540; 12479; 12505; 12540; 12473; 12408; 12398; 20445; 23384; 12395; 22833; 25943; 12375; 12414; 12375; 12383; 12290].
(** [URLからのデータ取得中にエラーが発生しました。] *)
Definition msg_url_failed : jsstr :=
  [85; 82; 76; 12363; 12425; 12398; 12487; 12540; 12479; 21462; 24471; 20013; 12395; 12456; 12521; 12540; 12364; 30330; 29983; 12375; 12414; 12375; 12383; 12290].
(** [要約対象のテキストがありません。] *)
Definition msg_no_summary_text : jsstr :=
  [35201; 32004; 23550; 35937; 12398; 12486; 12461; 12473; 12488; 12364; 12354; 12426; 12414; 12379; 12435; 12290].
(** [無効なURLです。正しいURLを入力してください。] *)
Definition msg_invalid_url : jsstr :=
  [28961; 21177; 12394; 85; 82; 76; 12391; 12377; 12290; 27491; 12375; 12356; 85; 82; 76; 12434; 20837; 21147; 12375; 12390; 12367; 12384; 12373; 12356; 12290].
(** [Webページの取得に失敗しました: ] *)
Definition msg_fetch_failed_prefix : jsstr :=
  [87; 101; 98; 12506; 12540; 12472; 12398; 21462; 24471; 12395; 22833; 25943; 12375; 12414; 12375; 12383; 58; 32].
(** [Webページの取得中に不明なエラーが発生しました。] *)
Definition msg_fetch_unknown : jsstr :=
  [87; 101; 98; 12506; 12540; 12472; 12398; 21462; 24471; 20013; 12395; 19981; 26126; 12394; 12456; 12521; 12540; 12364; 30330; 29983; 12375; 12414; 12375; 12383; 12290].
(** [HTTPエラー: ] *)
Definition msg_http_error_prefix : jsstr :=
  [72; 84; 84; 80; 12456; 12521; 12540; 58; 32].
(** [catalog-], the prefix of the Firestore catalog id. *)
Definition str_catalog_prefix : jsstr :=
  [99; 97; 116; 97; 108; 111; 103; 45].
(** [URL] *)
Definition str_URL : jsstr := [85; 82; 76].
(** The [TypeError] message of the [URL] constructor on an unparsable
    string (V8): [Failed to construct 'URL': Invalid URL]. *)
Definition msg_url_typeerror : jsstr :=
  [70; 97; 105; 108; 101; 100; 32; 116; 111; 32; 99; 111; 110; 115; 116; 114; 117; 99; 116; 32; 39; 85; 82; 76; 39; 58; 32; 73; 110; 118; 97; 108; 105; 100; 32; 85; 82; 76].
(** Firestore's [updateDoc] rejection on a missing document:
    [No document to update]. *)
Definition msg_no_document : jsstr :=
  [78; 111; 32; 100; 111; 99; 117; 109; 101; 110; 116; 32; 116; 111; 32; 117; 112; 100; 97; 116; 101].

(* ------------------------------------------------------------------ *)
(** ** Exceptions and results *)

(** A thrown value: an [Error] (or subclass other than [TypeError]), a
    [TypeError], or a thrown value that is not an [Error] at all. *)
Inductive Exn :=
| ErrorE (message : jsstr)
| TypeErrorE (message : jsstr)
| NonErrorThrow.

(** A settled promise: fulfilled with a value or rejected with a reason. *)
Inductive result (A : Type) :=
| Ok (v : A)
| Throw (e : Exn).
Arguments Ok {A} v.
Arguments Throw {A} e.

(** [e instanceof Error ? e.message : dflt]. *)
Definition reasonMessage (e : Exn) (dflt : jsstr) : jsstr :=
  match e with
  | ErrorE m | TypeErrorE m => m
  | NonErrorThrow => dflt
  end.

(* ------------------------------------------------------------------ *)
(** ** Data model ([types.ts]) *)

(** [CarSpecification]; [id] is renamed [carId] because [CatalogRecord]
    has an [id] too. [price] is an integral number of yen. *)
Record CarSpecification := mkCarSpecification {
  carId : jsstr;
  manufacturer : option jsstr;
  modelName : option jsstr;
  grade : option jsstr;
  price : option Z;
  issueDate : option jsstr;
  engineType : option jsstr;
  displacement : option jsstr;
  maxPower : option jsstr;
  maxTorque : option jsstr;
  fuelEconomy : option jsstr;
  options : option (list jsstr)
}.

(** [Omit<CatalogRecord, 'id'>]: the fields of a catalog record other than
    its identifier; also the content of a Firestore document. [createdAt] is
    the [Date] (a Firestore [Timestamp] in the document) in milliseconds;
    [summary] and [images] are the optional fields ([None] = key absent). *)
Record CatalogData := mkCatalogData {
  fileName : jsstr;
  createdAt : Z;
  extractedData : list CarSpecification;
  rawJson : jsstr;
  rawText : jsstr;
  summary : option jsstr;
  images : option (list jsstr)
}.

(** [CatalogRecord] = [{ ...data, id }]. The Firestore store that the
    application imports uses document ids (strings) as identifiers. *)
Record CatalogRecord := mkCatalogRecord {
  id : jsstr;
  body : CatalogData
}.

Definition with_summary (d : CatalogData) (s : option jsstr) : CatalogData :=
  mkCatalogData (fileName d) (createdAt d) (extractedData d) (rawJson d)
    (rawText d) s (images d).

Definition with_images (d : CatalogData) (i : option (list jsstr)) : CatalogData :=
  mkCatalogData (fileName d) (createdAt d) (extractedData d) (rawJson d)
    (rawText d) (summary d) i.

(** The Progress Tracker ([ProgressStep], [ProgressState] of [App.tsx]).
    A JS [Set] is a list without duplicates in insertion order. *)
Inductive ProgressStep :=
| idle | reading | converting | extractingText | extractingJson
| saving | done | error.

#[global] Instance ProgressStep_eq_dec : EqDecision ProgressStep.
Proof. solve_decision. Defined.

Record ProgressState := mkProgressState {
  step : ProgressStep;
  errorMsg : option jsstr;
  completedSteps : list ProgressStep
}.

(** [Set.prototype.add]. *)
Definition set_add (s : list ProgressStep) (x : ProgressStep) : list ProgressStep :=
  if decide (x ∈ s) then s else s ++ [x].

(** [{ ...prev, step: st, completedSteps: new Set(prev.completedSteps).add(...) }]:
    the spread keeps [prev.error]. *)
Definition advance (st : ProgressStep) (added : list ProgressStep)
    (prev : ProgressState) : ProgressState :=
  mkProgressState st (errorMsg prev) (fold_left set_add added (completedSteps prev)).

(** [{ ...prev, step: 'error', error: m, completedSteps: prev.completedSteps }]. *)
Definition fail_keep (m : jsstr) (prev : ProgressState) : ProgressState :=
  mkProgressState error (Some m) (completedSteps prev).

(** [{ step: 'error', error: m, completedSteps: new Set() }]. *)
Definition fail_reset (m : jsstr) (_ : ProgressState) : ProgressState :=
  mkProgressState error (Some m) [].

(** [{ step: st, completedSteps: new Set() }]. *)
Definition fresh_state (st : ProgressStep) (_ : ProgressState) : ProgressState :=
  mkProgressState st None [].

(* ------------------------------------------------------------------ *)
(** ** External capabilities *)

(** A [Response] of [fetch]: [ok], [status] and the outcome of [.json()],
    of which the pipeline reads [.contents]. *)
Record Response := mkResponse {
  ok : bool;
  status : Z;
  contents : result jsstr
}.

(** An uploaded [File]: its name and the outcome of reading and rendering
    it: [None] when the [FileReader] fails (its [error] event fires, for
    which [handleFileChange] sets no handler, so [onload] never runs),
    [Some (Throw e)] when pdf.js rejects inside [onload], [Some (Ok images)]
    the JPEG data URLs of the rendered pages. *)
Record File := mkFile {
  name : jsstr;
  rendered : option (result (list jsstr))
}.

Record Env := mkEnv {
  (** [extractRawTextFromImages]: the text branch of the Extraction Gateway. *)
  extractRawTextFromImages : list jsstr -> result jsstr;
  (** [extractCarDataFromImages]: the structured branch
      ([{ parsedData, rawJson }]). *)
  extractCarDataFromImages : list jsstr -> result (list CarSpecification * jsstr);
  (** The model call of [generateSummary] (with its timeout and
      [handleGeminiError]); its text is trimmed by [generateSummary]. *)
  summaryModel : jsstr -> result jsstr;
  (** [extractCarDataFromWebPage]: [{ parsedData, rawJson, rawText }]. *)
  extractCarDataFromWebPage : jsstr -> jsstr -> result (list CarSpecification * jsstr * jsstr);
  (** The WHATWG URL parser: the [hostname] of a valid URL, [None] when the
      [URL] constructor throws. *)
  parseURL : jsstr -> option jsstr;
  (** [fetch] of the CORS proxy for a URL. *)
  fetchProxy : jsstr -> result Response;
  (** [uploadImagesToStorage images catalogId]. *)
  uploadImagesToStorage : list jsstr -> jsstr -> result (list jsstr);
  (** The id Firestore's [addDoc] gives the new document, and its
      rejection, if any, in a given store state. *)
  addDocId : gmap jsstr CatalogData -> jsstr;
  addDocError : gmap jsstr CatalogData -> option Exn;
  (** The rejection, if any, of Firestore's [deleteDoc] of a document id in
      a given store state (Firestore itself does not reject a missing
      document). *)
  deleteDocError : jsstr -> gmap jsstr CatalogData -> option Exn;
  (** The rejection, if any, of Firestore's [getDocs] in a given store
      state. *)
  getDocsError : gmap jsstr CatalogData -> option Exn;
  (** [Date.now()] / [new Date()] during the run. *)
  now : Z
}.

(** Observable requests to the outside world, in the order issued. *)
Inductive Call :=
| CallExtractText (images : list jsstr)
| CallExtractJson (images : list jsstr)
| CallSummary (text : jsstr)
| CallExtractWebPage (html url : jsstr)
| CallFetch (url : jsstr)
| CallUploadImages (images : list jsstr) (catalogId : jsstr)
| CallAddDoc (data : CatalogData).

(** The application state: the progress tracker, every progress state set
    so far ([trace], oldest first), the Firestore collection [catalogs]
    (document id to document), the requests issued, and the React state
    [selectedCatalog] / [savedCatalogs]. *)
Record World := mkWorld {
  progress : ProgressState;
  trace : list ProgressState;
  store : gmap jsstr CatalogData;
  calls : list Call;
  selectedCatalog : option CatalogRecord;
  savedCatalogs : list CatalogRecord
}.

(** A state monad over [World]. *)
Definition M (A : Type) : Type := World -> A * World.

Definition ret {A} (a : A) : M A := fun w => (a, w).

Definition bind {A B} (m : M A) (k : A -> M B) : M B :=
  fun w => let '(a, w') := m w in k a w'.

Notation "'let!' x ':=' m 'in' k" := (bind m (fun x => k))
  (at level 200, x name, m at level 100, k at level 200).
Notation "m ;; k" := (bind m (fun _ => k))
  (at level 100, right associativity, only parsing).

Definition setProgress (f : ProgressState -> ProgressState) : M unit :=
  fun w => let p := f (progress w) in
    (tt, mkWorld p (trace w ++ [p]) (store w) (calls w)
            (selectedCatalog w) (savedCatalogs w)).

Definition setStore (s : gmap jsstr CatalogData) : M unit :=
  fun w => (tt, mkWorld (progress w) (trace w) s (calls w)
                   (selectedCatalog w) (savedCatalogs w)).

Definition getStore : M (gmap jsstr CatalogData) := fun w => (store w, w).

Definition issue (c : Call) : M unit :=
  fun w => (tt, mkWorld (progress w) (trace w) (store w) (calls w ++ [c])
                   (selectedCatalog w) (savedCatalogs w)).

Definition setSelectedCatalog (c : option CatalogRecord) : M unit :=
  fun w => (tt, mkWorld (progress w) (trace w) (store w) (calls w) c
                   (savedCatalogs w)).

Definition setSavedCatalogs (f : list CatalogRecord -> list CatalogRecord) : M unit :=
  fun w => (tt, mkWorld (progress w) (trace w) (store w) (calls w)
                   (selectedCatalog w) (f (savedCatalogs w))).

(* ------------------------------------------------------------------ *)
(** ** The Firestore catalog store (the [./db] module [App.tsx] uses) *)

(** [orderBy('createdAt', 'desc')]. *)
Definition newer_first (a b : jsstr * CatalogData) : Prop :=
  createdAt (snd b) <= createdAt (snd a).

#[global] Instance newer_first_dec : RelDecision newer_first.
Proof. intros a b. unfold newer_first. apply _. Defined.

(** [getAllCatalogs]: the documents of the collection, ordered by
    [createdAt] descending, each turned into [{ ...data, id: doc.id }]
    ([Timestamp.toDate] is the identity on milliseconds). Documents with the
    same [createdAt] come in the store's own order. *)
Definition getAllCatalogs (st : gmap jsstr CatalogData) : list CatalogRecord :=
  map (fun kd => mkCatalogRecord (fst kd) (snd kd))
    (merge_sort newer_first (map_to_list st)).

(** The fields an [updateDoc] writes over a document: every field of the
    update; an optional field absent from the update keeps its old value. *)
Definition merge_update (old new : CatalogData) : CatalogData :=
  mkCatalogData (fileName new) (createdAt new) (extractedData new)
    (rawJson new) (rawText new)
    (match summary new with Some s => Some s | None => summary old end)
    (match images new with Some i => Some i | None => images old end).

Section Pipeline.

Variable env : Env.

(** [generateSummary] (geminiService.ts): a blank text gives the
    placeholder without calling the model; otherwise the model is called
    and its text trimmed, and its rejection is rethrown. *)
Definition generateSummary (text : jsstr) : M (result jsstr) :=
  if negb (truthy (trim text)) then ret (Ok msg_no_summary_text)
  else
    issue (CallSummary text) ;;
    ret (match summaryModel env text with
         | Ok r => Ok (trim r)
         | Throw e => Throw e
         end).

(** [saveCatalog]: upload the images (if any) under
    [catalog-${Date.now()}], then [addDoc] the record with the image URLs
    in place of the images. *)
Definition saveCatalog (catalog : CatalogData) : M (result CatalogRecord) :=
  let catalogId := str_catalog_prefix ++ number_to_string (now env) in
  let! uploaded :=
    match images catalog with
    | Some ((_ :: _) as l) =>
        issue (CallUploadImages l catalogId) ;;
        ret (uploadImagesToStorage env l catalogId)
    | _ => ret (Ok [])
    end in
  match uploaded with
  | Throw e => ret (Throw e)
  | Ok imageUrls =>
      let data := with_images catalog (Some imageUrls) in
      issue (CallAddDoc data) ;;
      let! st := getStore in
      match addDocError env st with
      | Some e => ret (Throw e)
      | None =>
          let k := addDocId env st in
          setStore (<[k := data]> st) ;;
          ret (Ok (mkCatalogRecord k data))
      end
  end.

(** [deleteCatalog]: [deleteDoc] of the document, with no check that it
    exists; a rejection of [deleteDoc] is logged and rethrown. *)
Definition deleteCatalog (docId : jsstr) : M (result unit) :=
  let! st := getStore in
  match deleteDocError env docId st with
  | Some e => ret (Throw e)
  | None =>
      setStore (delete docId st) ;;
      ret (Ok tt)
  end.

(** [updateCatalog]: [updateDoc] with every field but [id]; [updateDoc]
    rejects when the document does not exist. *)
Definition updateCatalog (c : CatalogRecord) : M (result CatalogRecord) :=
  let! st := getStore in
  match st !! id c with
  | None => ret (Throw (ErrorE msg_no_document))
  | Some old =>
      setStore (<[id c := merge_update old (body c)]> st) ;;
      ret (Ok c)
  end.

(** [loadCatalogs] ([App.tsx]): [await db.getAllCatalogs()], whose
    [getDocs] rejection is logged and rethrown, then [setSavedCatalogs]. *)
Definition loadCatalogs : M (result unit) :=
  let! st := getStore in
  match getDocsError env st with
  | Some e => ret (Throw e)
  | None =>
      setSavedCatalogs (fun _ => getAllCatalogs st) ;;
      ret (Ok tt)
  end.

(* ------------------------------------------------------------------ *)
(** ** The orchestrator ([App.tsx]) *)

(** The settled text branch: [extractedRawText] and the error it adds to
    [apiErrors]. *)
Definition settle_text (r : result jsstr) : jsstr * list jsstr :=
  match r with
  | Ok v => (v, [])
  | Throw e => ([], [reasonMessage e msg_text_unknown])
  end.

(** The settled structured branch: [extractedJsonData] (initially
    [{ parsedData: [], rawJson: '' }]) and its error. *)
Definition settle_json (r : result (list CarSpecification * jsstr))
    : (list CarSpecification * jsstr) * list jsstr :=
  match r with
  | Ok v => (v, [])
  | Throw e => (([], []), [reasonMessage e msg_json_unknown])
  end.

(** [handleExtractData images fileName]. [createChat] only sets the chat
    state and is left out. *)
Definition handleExtractData (imgs : list jsstr) (fname : jsstr) : M unit :=
  match imgs with
  | [] => setProgress (fail_reset msg_no_images)
  | _ :: _ =>
      (* Promise.allSettled([extractRawTextFromImages, extractCarDataFromImages]) *)
      issue (CallExtractText imgs) ;;
      issue (CallExtractJson imgs) ;;
      let '(extractedRawText, errText) := settle_text (extractRawTextFromImages env imgs) in
      let '((parsedData, rawJsonText), errJson) :=
        settle_json (extractCarDataFromImages env imgs) in
      let apiErrors := errText ++ errJson in
      match apiErrors with
      | _ :: _ =>
          (* throw new Error(apiErrors.join('\n')), caught below *)
          setProgress (fail_keep (join_nl apiErrors))
      | [] =>
          let! summaryText :=
            if truthy extractedRawText then
              let! r := generateSummary extractedRawText in
              ret (match r with Ok s => s | Throw _ => [] end)
            else ret [] in
          setProgress (advance saving [extractingText; extractingJson]) ;;
          if negb (truthy extractedRawText) && (length parsedData =? 0)%nat then
            setProgress (fail_reset msg_nothing_extracted)
          else
            let! saved := saveCatalog
              (mkCatalogData fname (now env) parsedData rawJsonText
                 extractedRawText (Some summaryText) (Some imgs)) in
            match saved with
            | Ok newCatalog =>
                (* await loadCatalogs(), in the same try as the save *)
                let! loaded := loadCatalogs in
                match loaded with
                | Throw e => setProgress (fail_keep (reasonMessage e msg_db_save_failed))
                | Ok _ =>
                    setSelectedCatalog (Some newCatalog) ;;
                    setProgress (advance done [saving])
                end
            | Throw e => setProgress (fail_keep (reasonMessage e msg_db_save_failed))
            end
      end
  end.

(** [resetStateForNewFile] (of the modelled state, the selected catalog). *)
Definition resetStateForNewFile : M unit := setSelectedCatalog None.

(** [handleFileChange file]: read, render, then extract. A failed read
    fires the reader's [error] event, which has no handler: [onload] never
    runs and the tracker is left at [reading]. The [!event.target?.result]
    guard of [onload] is left out: [readAsArrayBuffer] always loads an
    [ArrayBuffer]. A rejection inside the [onload] handler is not caught by
    the surrounding [try] (the handler runs later): the tracker is left
    where it was. *)
Definition handleFileChange (file : File) : M unit :=
  resetStateForNewFile ;;
  setProgress (fresh_state reading) ;;
  match rendered file with
  | None => ret tt
  | Some r =>
      setProgress (advance converting [reading]) ;;
      match r with
      | Throw _ => ret tt
      | Ok imgs =>
          setProgress (advance extractingText [converting]) ;;
          handleExtractData imgs (name file)
      end
  end.

(** The [catch] of [fetchWebPageContent]: a [TypeError] mentioning [URL]
    becomes the invalid-URL error; any other [Error] is wrapped. *)
Definition fetch_catch (e : Exn) : Exn :=
  match e with
  | TypeErrorE m =>
      if includes m str_URL then ErrorE msg_invalid_url
      else ErrorE (msg_fetch_failed_prefix ++ m)
  | ErrorE m => ErrorE (msg_fetch_failed_prefix ++ m)
  | NonErrorThrow => ErrorE msg_fetch_unknown
  end.

(** [fetchWebPageContent url] (webScraperService.ts): [new URL(url)]
    validates first; only then is the proxy fetched. *)
Definition fetchWebPageContent (url : jsstr) : M (result jsstr) :=
  match parseURL env url with
  | None => ret (Throw (fetch_catch (TypeErrorE msg_url_typeerror)))
  | Some _ =>
      issue (CallFetch url) ;;
      ret (match fetchProxy env url with
           | Throw e => Throw (fetch_catch e)
           | Ok response =>
               if ok response then
                 match contents response with
                 | Ok c => Ok c
                 | Throw e => Throw (fetch_catch e)
                 end
               else Throw (fetch_catch (ErrorE (msg_http_error_prefix
                                                ++ number_to_string (status response))))
           end)
  end.

(** [handleUrlSubmit url]. Every failure lands in the one [catch], which
    resets the completed steps. *)
Definition handleUrlSubmit (url : jsstr) : M unit :=
  let fail (e : Exn) := setProgress (fail_reset (reasonMessage e msg_url_failed)) in
  resetStateForNewFile ;;
  setProgress (fresh_state reading) ;;
  let! fetched := fetchWebPageContent url in
  match fetched with
  | Throw e => fail e
  | Ok htmlContent =>
      setProgress (advance extractingJson [reading]) ;;
      issue (CallExtractWebPage htmlContent url) ;;
      match extractCarDataFromWebPage env htmlContent url with
      | Throw e => fail e
      | Ok (parsedData, rawJsonText, rawTextValue) =>
          setProgress (advance saving [extractingJson]) ;;
          let! summaryText :=
            if truthy rawTextValue then
              let! r := generateSummary rawTextValue in
              ret (match r with Ok s => s | Throw _ => [] end)
            else ret [] in
          match parseURL env url with
          | None => fail (TypeErrorE msg_url_typeerror)
          | Some hostname =>
              let! saved := saveCatalog
                (mkCatalogData hostname (now env) parsedData rawJsonText
                   rawTextValue (Some summaryText) (Some [])) in
              match saved with
              | Throw e => fail e
              | Ok newCatalog =>
                  let! loaded := loadCatalogs in
                  match loaded with
                  | Throw e => fail e
                  | Ok _ =>
                      setSelectedCatalog (Some newCatalog) ;;
                      setProgress (advance done [saving])
                  end
              end
          end
      end
  end.

(** [!catalog.summary] is true for an absent or empty summary. *)
Definition summary_truthy (s : option jsstr) : bool :=
  match s with Some t => truthy t | None => false end.

(** [handleSelectCatalog catalog]: show the record; when it has no summary
    but has raw text, generate the summary and write it back with
    [updateCatalog]; a failure of either is logged and ignored. *)
Definition handleSelectCatalog (catalog : CatalogRecord) : M unit :=
  setProgress (fresh_state idle) ;;
  if negb (summary_truthy (summary (body catalog))) && truthy (rawText (body catalog)) then
    setSelectedCatalog (Some catalog) ;;
    let! r := generateSummary (rawText (body catalog)) in
    match r with
    | Throw _ => ret tt
    | Ok s =>
        let updatedCatalog :=
          mkCatalogRecord (id catalog) (with_summary (body catalog) (Some s)) in
        let! u := updateCatalog updatedCatalog in
        match u with
        | Throw _ => ret tt
        | Ok _ =>
            setSelectedCatalog (Some updatedCatalog) ;;
            setSavedCatalogs (map (fun c =>
              if decide (id c = id updatedCatalog) then updatedCatalog else c))
        end
    end
  else setSelectedCatalog (Some catalog).

End Pipeline.

(* ------------------------------------------------------------------ *)
(** ** The IndexedDB catalog store ([db.ts]) *)

Module IDB.

(** The object store [catalogs] ([keyPath: 'id', autoIncrement: true]):
    its key generator (starting at 1) and its records by key. *)
Record IdbStore := mkIdbStore {
  keyGen : Z;
  recs : gmap Z CatalogData
}.

Definition initial : IdbStore := mkIdbStore 1 ∅.

(** [saveCatalog]: [store.add(catalog)] takes the key generator's current
    number as the new key and advances the generator past it. *)
Definition saveCatalog (s : IdbStore) (c : CatalogData) : Z * IdbStore :=
  (keyGen s, mkIdbStore (keyGen s + 1) (<[keyGen s := c]> (recs s))).

(** [deleteCatalog]: [store.delete(id)], with no check that a record has
    that key; [reqError] is the request's [error] event, if it fires, which
    rejects the promise and leaves the store as it was. *)
Definition deleteCatalog (s : IdbStore) (k : Z) (reqError : option Exn)
    : result unit * IdbStore :=
  match reqError with
  | Some e => (Throw e, s)
  | None => (Ok tt, mkIdbStore (keyGen s) (delete k (recs s)))
  end.

Definition key_le (a b : Z * CatalogData) : Prop := fst a <= fst b.
Definition key_ge (a b : Z * CatalogData) : Prop := fst b <= fst a.

#[global] Instance key_le_dec : RelDecision key_le.
Proof. intros a b. unfold key_le. apply _. Defined.
#[global] Instance key_ge_dec : RelDecision key_ge.
Proof. intros a b. unfold key_ge. apply _. Defined.

(** [store.getAll()]: the records in ascending key order. *)
Definition getAll (s : IdbStore) : list (Z * CatalogData) :=
  merge_sort key_le (map_to_list (recs s)).

(** [getAllCatalogs]: [getAll()] sorted by [(a, b) => b.id - a.id]. *)
Definition getAllCatalogs (s : IdbStore) : list (Z * CatalogData) :=
  merge_sort key_ge (getAll s).

(** A sequence of store operations from the empty store. *)
Inductive op :=
| OpSave (c : CatalogData)
| OpDelete (k : Z) (reqError : option Exn).

Definition apply_op (s : IdbStore) (o : op) : IdbStore :=
  match o with
  | OpSave c => snd (saveCatalog s c)
  | OpDelete k err => snd (deleteCatalog s k err)
  end.

Definition run_ops (ops : list op) : IdbStore := fold_left apply_op ops initial.

End IDB.

(* ------------------------------------------------------------------ *)
(** ** Runs and concrete environments *)

(** The world after running an action. *)
Definition run {A} (m : M A) (w : World) : World := snd (m w).

Definition initialWorld : World :=
  mkWorld (mkProgressState idle None []) [] ∅ [] None [].

(** Consecutive progress states never lose a completed step. *)
Definition consecutive_monotone (l : list ProgressState) : Prop :=
  forall (i : nat) (p q : ProgressState),
    l !! i = Some p -> l !! S i = Some q ->
    completedSteps p ⊆ completedSteps q.

(** [Page1 Page2 Page3] *)
Definition str_pages : jsstr :=
  [80; 97; 103; 101; 49; 32; 80; 97; 103; 101; 50; 32; 80; 97; 103; 101; 51].
(** [RateLimited] *)
Definition str_rate_limited : jsstr :=
  [82; 97; 116; 101; 76; 105; 109; 105; 116; 101; 100].
(** [Timeout] *)
Definition str_timeout : jsstr := [84; 105; 109; 101; 111; 117; 116].
(** [catalog.pdf] *)
Definition str_catalog_pdf : jsstr :=
  [99; 97; 116; 97; 108; 111; 103; 46; 112; 100; 102].
(** [data:image/jpeg] *)
Definition str_page_image : jsstr :=
  [100; 97; 116; 97; 58; 105; 109; 97; 103; 101; 47; 106; 112; 101; 103].
(** [not a url] *)
Definition str_not_a_url : jsstr := [110; 111; 116; 32; 97; 32; 117; 114; 108].
(** [https://example.com/] *)
Definition str_example_url : jsstr :=
  [104; 116; 116; 112; 115; 58; 47; 47; 101; 120; 97; 109; 112; 108; 101; 46; 99; 111; 109; 47].
(** [example.com] *)
Definition str_example_host : jsstr :=
  [101; 120; 97; 109; 112; 108; 101; 46; 99; 111; 109].
(** [<html>Page1 Page2 Page3</html>] is abbreviated to [<html>]. *)
Definition str_html : jsstr := [60; 104; 116; 109; 108; 62].

(** An environment whose gateway answers [text], [json] and [summ]; URLs
    parse when they contain [://]; the web page yields [web]; uploads and
    [addDoc] succeed; document ids are the decimal size of the store. *)
Definition demoEnv (text : result jsstr)
    (json : result (list CarSpecification * jsstr)) (summ : result jsstr)
    (web : result (list CarSpecification * jsstr * jsstr)) : Env :=
  mkEnv (fun _ => text) (fun _ => json) (fun _ => summ) (fun _ _ => web)
    (fun u => if includes u [58; 47; 47] then Some str_example_host else None)
    (fun _ => Ok (mkResponse true 200 (Ok str_html)))
    (fun l _ => Ok (map (fun _ => str_example_url) l))
    (fun st => number_to_string (Z.of_nat (size st)))
    (fun _ => None) (fun _ _ => None) (fun _ => None)
    1700000000000.

Definition demoFile : File := mkFile str_catalog_pdf (Some (Ok [str_page_image])).

(** One record extracted from a page. *)
Definition demoCar : CarSpecification :=
  mkCarSpecification [49] None None None (Some 3000000) None None None None None None None.

(** Every key of a reachable IndexedDB store is below its key generator. *)
Definition keys_below (s : IDB.IdbStore) : Prop :=
  map_Forall (fun k _ => k < IDB.keyGen s) (IDB.recs s).

(* ------------------------------------------------------------------ *)
(** ** More of [App.tsx]: deleting, editing, filtering *)

Definition getSelectedCatalog : M (option CatalogRecord) :=
  fun w => (selectedCatalog w, w).

(** [handleDeleteCatalog id]: delete, reload the list, and when the deleted
    record is the one shown ([selectedCatalogId], read when the handler
    starts), clear the selection and reset the tracker. A rejection of the
    delete or of the reload is not caught: the handler's promise rejects
    with it. *)
Definition handleDeleteCatalog (env : Env) (docId : jsstr) : M (result unit) :=
  let! sel := getSelectedCatalog in
  let selectedCatalogId := option_map id sel in
  let! deleted := deleteCatalog env docId in
  match deleted with
  | Throw e => ret (Throw e)
  | Ok _ =>
      let! loaded := loadCatalogs env in
      match loaded with
      | Throw e => ret (Throw e)
      | Ok _ =>
          if decide (selectedCatalogId = Some docId) then
            setSelectedCatalog None ;;
            setProgress (fresh_state idle) ;;
            ret (Ok tt)
          else ret (Ok tt)
      end
  end.

Definition with_extractedData (d : CatalogData) (l : list CarSpecification) : CatalogData :=
  mkCatalogData (fileName d) (createdAt d) l (rawJson d) (rawText d)
    (summary d) (images d).

(** [handleCellChange id key value]: the item whose id matches gets the
    field write [{ ...item, [key]: value }], written here as [upd]; only the
    shown catalog changes (the source notes the edit is not persisted). *)
Definition handleCellChange (cid : jsstr)
    (upd : CarSpecification -> CarSpecification) : M unit :=
  let! sel := getSelectedCatalog in
  match sel with
  | None => ret tt
  | Some c =>
      let updatedData :=
        map (fun item => if decide (carId item = cid) then upd item else item)
          (extractedData (body c)) in
      setSelectedCatalog
        (Some (mkCatalogRecord (id c) (with_extractedData (body c) updatedData)))
  end.

(** The [Filters] of [App.tsx]. *)
Record Filters := mkFilters {
  fManufacturer : jsstr;
  fModelName : jsstr;
  fIssueDate : jsstr;
  fOption : jsstr
}.

(** [filters.x ? item.x === filters.x : true] for a nullable string field. *)
Definition field_matches (filter : jsstr) (v : option jsstr) : bool :=
  if truthy filter then bool_decide (v = Some filter) else true.

(** [filteredData] (the [useMemo] of [App.tsx]), for a given
    [String.prototype.toLowerCase]. *)
Definition filteredData (toLowerCase : jsstr -> jsstr)
    (selected : option CatalogRecord) (filters : Filters) : list CarSpecification :=
  match selected with
  | None => []
  | Some c =>
      filter (fun item =>
        let searchOption := toLowerCase (fOption filters) in
        field_matches (fManufacturer filters) (manufacturer item) &&
        field_matches (fModelName filters) (modelName item) &&
        field_matches (fIssueDate filters) (issueDate item) &&
        (if truthy searchOption then
           match options item with
           | Some opts => existsb (fun opt => includes (toLowerCase opt) searchOption) opts
           | None => false
           end
         else true))
        (extractedData (body c))
  end.

(** [isProcessing], and the [disabled] flag of [FileUpload] and [UrlInput]:
    [isProcessing && progress.step !== 'error']. *)
Definition isProcessing (s : ProgressStep) : bool :=
  negb (bool_decide (s = idle)) && negb (bool_decide (s = done)).

Definition inputDisabled (s : ProgressStep) : bool :=
  isProcessing s && negb (bool_decide (s = error)).

(* ------------------------------------------------------------------ *)
(** ** CSV export ([utils/export.ts]) *)

(** The value of [row[key]]: [null] or [undefined], a string, a number or a
    string array. *)
Inductive CellValue :=
| CellNull
| CellUndefined
| CellString (s : jsstr)
| CellNumber (n : Z)
| CellStrings (l : list jsstr).

(** [Array.prototype.join(sep)]. *)
Definition join_with (sep : Z) (l : list jsstr) : jsstr :=
  match l with
  | [] => []
  | x :: r => x ++ concat (map (fun s => sep :: s) r)
  end.

(** The text [escapeCsvCell] escapes: the empty string for [null] and
    [undefined] (checked first), [String(cell)] otherwise, where an array of
    strings is joined with commas. *)
Definition cell_to_string (c : CellValue) : jsstr :=
  match c with
  | CellNull | CellUndefined => []
  | CellString s => s
  | CellNumber n => number_to_string n
  | CellStrings l => join_with 44 l
  end.

(** [str.replace] of every double quote (code unit 34) by two. *)
Definition double_quotes (s : jsstr) : jsstr :=
  concat (map (fun c => if c =? 34 then [34; 34] else [c]) s).

Definition csv_special (s : jsstr) : bool :=
  includes s [44] || includes s [34] || includes s [10].

(** [escapeCsvCell]. *)
Definition escapeCsvCell (c : CellValue) : jsstr :=
  match c with
  | CellNull | CellUndefined => []
  | _ =>
      let str := cell_to_string c in
      if csv_special str then 34 :: double_quotes str ++ [34] else str
  end.

(** The keys of [CarSpecification] and [row[key]]. *)
Inductive CarKey :=
| KId | KManufacturer | KModelName | KGrade | KPrice | KIssueDate
| KEngineType | KDisplacement | KMaxPower | KMaxTorque | KFuelEconomy | KOptions.

Definition opt_string (o : option jsstr) : CellValue :=
  match o with Some s => CellString s | None => CellNull end.

Definition cell_of (row : CarSpecification) (k : CarKey) : CellValue :=
  match k with
  | KId => CellString (carId row)
  | KManufacturer => opt_string (manufacturer row)
  | KModelName => opt_string (modelName row)
  | KGrade => opt_string (grade row)
  | KPrice => match price row with Some n => CellNumber n | None => CellNull end
  | KIssueDate => opt_string (issueDate row)
  | KEngineType => opt_string (engineType row)
  | KDisplacement => opt_string (displacement row)
  | KMaxPower => opt_string (maxPower row)
  | KMaxTorque => opt_string (maxTorque row)
  | KFuelEconomy => opt_string (fuelEconomy row)
  | KOptions => match options row with Some l => CellStrings l | None => CellNull end
  end.

(** The content [exportToCsv] hands to [downloadFile]: the header row
    (not escaped) and one escaped row per item, joined by line feeds. *)
Definition exportToCsv_content (data : list CarSpecification) (headers : list jsstr)
    (keys : list CarKey) : jsstr :=
  let headerRow := join_with 44 headers in
  let dataRows := map (fun row => join_with 44 (map (fun k => escapeCsvCell (cell_of row k)) keys)) data in
  join_with 10 (headerRow :: dataRows).

(** A reader of RFC 4180 CSV, used to state that exported content reads
    back into its cells. A field is either quoted (a doubled quote inside
    stands for one quote) or plain (up to the next comma or line feed). *)
Fixpoint read_plain (s : jsstr) : jsstr * jsstr :=
  match s with
  | [] => ([], [])
  | c :: r =>
      if (c =? 44) || (c =? 10) then ([], s)
      else let '(f, rest) := read_plain r in (c :: f, rest)
  end.

Fixpoint read_quoted (s : jsstr) : jsstr * jsstr :=
  match s with
  | [] => ([], [])
  | c :: r =>
      if c =? 34 then
        match r with
        | c2 :: r2 =>
            if c2 =? 34 then let '(f, rest) := read_quoted r2 in (34 :: f, rest)
            else ([], r)
        | [] => ([], [])
        end
      else let '(f, rest) := read_quoted r in (c :: f, rest)
  end.

Definition read_field (s : jsstr) : jsstr * jsstr :=
  match s with
  | c :: r => if c =? 34 then read_quoted r else read_plain s
  | [] => ([], [])
  end.

(** One row: its fields, the input after it, and whether a line feed ended
    it (so that another row follows). *)
Fixpoint read_row (fuel : nat) (s : jsstr) : list jsstr * jsstr * bool :=
  let '(f, rest) := read_field s in
  match rest with
  | c :: r =>
      if c =? 44 then
        match fuel with
        | O => ([f], r, false)
        | S fuel' => let '(fs, rest', more) := read_row fuel' r in (f :: fs, rest', more)
        end
      else ([f], r, true)
  | [] => ([f], [], false)
  end.

Fixpoint read_rows (fuel : nat) (s : jsstr) : list (list jsstr) :=
  let '(row, rest, more) := read_row (length s) s in
  if more then
    match fuel with
    | O => [row]
    | S fuel' => row :: read_rows fuel' rest
    end
  else [row].

Definition read_csv (s : jsstr) : list (list jsstr) := read_rows (length s) s.

(* ------------------------------------------------------------------ *)
(** ** Helper lemmas *)

Lemma drop_leading_space_all (s : jsstr) :
  forallb is_js_space s = true -> drop_leading_space s = [].
Proof.
  induction s as [|c r IH]; simpl; [reflexivity|].
  intros H. apply andb_true_iff in H as [Hc Hr]. rewrite Hc. auto.
Qed.

Lemma trim_blank (s : jsstr) : forallb is_js_space s = true -> trim s = [].
Proof. intros H. unfold trim. rewrite (drop_leading_space_all s H). reflexivity. Qed.

(** Unfold one step of a run of the orchestrator. *)
Ltac unfold_run :=
  unfold run, handleFileChange, handleExtractData, handleUrlSubmit,
    handleSelectCatalog, resetStateForNewFile, fetchWebPageContent,
    generateSummary, saveCatalog, updateCatalog, loadCatalogs, bind, ret,
    setProgress, setStore, getStore, issue, setSelectedCatalog,
    setSavedCatalogs in *.

(** Splits on the outcome of the catalog reload in the goal; then closes the
    two cases of a statement [(reload resolves -> ...) /\ (forall e,
    reload rejects with e -> ...)]. *)
Ltac reload_destruct :=
  unfold with_images; cbn;
  match goal with
  | |- context [getDocsError ?e ?st] => destruct (getDocsError e st) eqn:?
  end; cbn.

Ltac reload_cases :=
  let Hr := match goal with H : getDocsError _ _ = _ |- _ => H end in
  split;
  [intros Hn;
   first [discriminate
         |pose proof (eq_trans (eq_sym Hn) Hr) as Hx; discriminate
         |repeat split]
  |intros ? Hs;
   first [discriminate
         |pose proof (eq_trans (eq_sym Hs) Hr) as Hx;
          first [discriminate | injection Hx as ->; repeat split]]].

(** Rewrites the one [getDocsError] of the goal with a hypothesis whose
    store is the same up to conversion. *)
Ltac rewrite_getDocs H :=
  match goal with
  | |- context [getDocsError ?e ?st] =>
      let Hl := fresh "Hl" in
      assert (Hl : getDocsError e st = None) by exact H;
      rewrite Hl; clear Hl
  end.

(* ------------------------------------------------------------------ *)
(** ** Claims *)

(** C10: on an empty or whitespace-only text, [generateSummary] returns the
    placeholder [要約対象のテキストがありません。] without calling the model
    (the world, including the requests issued, is unchanged) and does not
    throw. *)
Theorem generateSummary_blank_placeholder (env : Env) (text : jsstr) (w : World)
    (Hblank : forallb is_js_space text = true) :
  generateSummary env text w = (Ok msg_no_summary_text, w).
Proof.
  unfold generateSummary. rewrite (trim_blank text Hblank). reflexivity.
Qed.

Lemma generateSummary_blank_placeholder_witness :
  forallb is_js_space [32; 12288; 10] = true /\
  generateSummary (demoEnv (Ok []) (Ok ([], [])) (Ok []) (Throw NonErrorThrow))
    [32; 12288; 10] initialWorld = (Ok msg_no_summary_text, initialWorld).
Proof.
  split; [reflexivity|].
  apply generateSummary_blank_placeholder. reflexivity.
Defined.

(** C7: a string the URL parser rejects makes [fetchWebPageContent] fail
    with the invalid-URL error before any request, and the URL pipeline ends
    in [error] with that message, no fetch issued and the store untouched. *)
Theorem url_invalid_fails_before_fetch (env : Env) (url : jsstr) (w : World)
    (Hinvalid : parseURL env url = None) :
  fetchWebPageContent env url w = (Throw (ErrorE msg_invalid_url), w) /\
  let w' := run (handleUrlSubmit env url) w in
  calls w' = calls w /\
  step (progress w') = error /\
  errorMsg (progress w') = Some msg_invalid_url /\
  store w' = store w.
Proof.
  unfold_run. rewrite Hinvalid. simpl. repeat split; reflexivity.
Qed.

Lemma url_invalid_fails_before_fetch_witness :
  let env := demoEnv (Ok []) (Ok ([], [])) (Ok []) (Throw NonErrorThrow) in
  parseURL env str_not_a_url = None /\
  calls (run (handleUrlSubmit env str_not_a_url) initialWorld) = [].
Proof.
  intros env. split; [reflexivity|].
  destruct (url_invalid_fails_before_fetch env str_not_a_url initialWorld
              (eq_refl None)) as [_ [Hcalls _]].
  exact Hcalls.
Defined.

(** C2: when both extraction branches reject, the run ends in [error] with
    the two failure messages joined by a line feed, and no record is created
    (the store and the loaded catalog list are unchanged). *)
Theorem both_branches_fail_error (env : Env) (file : File) (imgs : list jsstr)
    (w : World) (e1 e2 : Exn)
    (Hread : rendered file = Some (Ok imgs)) (Hne : imgs <> [])
    (Htext : extractRawTextFromImages env imgs = Throw e1)
    (Hjson : extractCarDataFromImages env imgs = Throw e2) :
  let w' := run (handleFileChange env file) w in
  step (progress w') = error /\
  errorMsg (progress w') =
    Some (reasonMessage e1 msg_text_unknown ++ 10 :: reasonMessage e2 msg_json_unknown) /\
  store w' = store w /\
  savedCatalogs w' = savedCatalogs w.
Proof.
  destruct imgs as [|i is]; [congruence|].
  unfold_run. rewrite Hread. cbn. rewrite Htext, Hjson. cbn.
  rewrite app_nil_r. repeat split; reflexivity.
Qed.

Lemma both_branches_fail_error_witness :
  let env := demoEnv (Throw (ErrorE str_timeout)) (Throw (ErrorE str_rate_limited))
               (Ok []) (Throw NonErrorThrow) in
  let w' := run (handleFileChange env demoFile) initialWorld in
  step (progress w') = error /\
  errorMsg (progress w') = Some (str_timeout ++ 10 :: str_rate_limited) /\
  store w' = ∅.
Proof.
  intros env w'.
  destruct (both_branches_fail_error env demoFile [str_page_image] initialWorld
              (ErrorE str_timeout) (ErrorE str_rate_limited)
              eq_refl ltac:(discriminate) eq_refl eq_refl) as [H1 [H2 [H3 _]]].
  split; [exact H1|]. split; [exact H2|exact H3].
Defined.

(** C1 (as stated): text extraction succeeds with [Page1 Page2 Page3] and
    structured extraction rejects with [RateLimited]; the claim expects a
    record with that raw text and the stage [done]. The run ends in [error]
    and creates no record. *)
Lemma one_branch_success_creates_no_record :
  let env := demoEnv (Ok str_pages) (Throw (ErrorE str_rate_limited))
               (Ok []) (Throw NonErrorThrow) in
  let w' := run (handleFileChange env demoFile) initialWorld in
  step (progress w') <> done /\
  step (progress w') = error /\
  store w' = ∅.
Proof. vm_compute. split; [discriminate|split; reflexivity]. Qed.

(** C1 (amended): when exactly one extraction branch rejects, the run ends
    in [error] with that branch's failure message and no record is created
    (the store and the loaded catalog list are unchanged). *)
Theorem one_branch_fails_error (env : Env) (file : File) (imgs : list jsstr)
    (w : World) (msg : jsstr)
    (Hread : rendered file = Some (Ok imgs)) (Hne : imgs <> [])
    (Hone : (exists t e, extractRawTextFromImages env imgs = Ok t /\
                         extractCarDataFromImages env imgs = Throw e /\
                         msg = reasonMessage e msg_json_unknown) \/
            (exists e j, extractRawTextFromImages env imgs = Throw e /\
                         extractCarDataFromImages env imgs = Ok j /\
                         msg = reasonMessage e msg_text_unknown)) :
  let w' := run (handleFileChange env file) w in
  step (progress w') = error /\
  errorMsg (progress w') = Some msg /\
  store w' = store w /\
  savedCatalogs w' = savedCatalogs w.
Proof.
  destruct imgs as [|i is]; [congruence|].
  destruct Hone as [[t [e [Ht [Hj Hm]]]] | [e [[pd rj] [Ht [Hj Hm]]]]];
    subst msg; unfold_run; rewrite Hread; cbn; rewrite Ht, Hj; cbn;
    rewrite ?app_nil_r; repeat split; reflexivity.
Qed.

Lemma one_branch_fails_error_witness :
  let env := demoEnv (Ok str_pages) (Throw (ErrorE str_rate_limited))
               (Ok []) (Throw NonErrorThrow) in
  let w' := run (handleFileChange env demoFile) initialWorld in
  step (progress w') = error /\
  errorMsg (progress w') = Some str_rate_limited /\
  store w' = ∅.
Proof.
  intros env w'.
  destruct (one_branch_fails_error env demoFile [str_page_image] initialWorld
              str_rate_limited eq_refl ltac:(discriminate)
              (or_introl (ex_intro _ str_pages (ex_intro _ (ErrorE str_rate_limited)
                 (conj eq_refl (conj eq_refl eq_refl))))))
    as [H1 [H2 [H3 _]]].
  split; [exact H1|]. split; [exact H2|exact H3].
Defined.




Lemma truthy_trim (t : jsstr) : truthy (trim t) = true -> truthy t = true.
Proof. destruct t; [discriminate|reflexivity]. Qed.

(** C6: when the summary is attempted (the raw text is not blank) and the
    model call rejects, the rejection is swallowed: the run still saves the
    record, with an empty summary, and, when the store accepts the record
    and the catalog list is then reloaded, ends in [done] with no error. *)
Theorem summary_failure_not_fatal (env : Env) (file : File) (imgs : list jsstr)
    (w : World) (t rj : jsstr) (pd : list CarSpecification) (e : Exn)
    (urls : list jsstr)
    (Hread : rendered file = Some (Ok imgs)) (Hne : imgs <> [])
    (Htext : extractRawTextFromImages env imgs = Ok t)
    (Hnonblank : truthy (trim t) = true)
    (Hjson : extractCarDataFromImages env imgs = Ok (pd, rj))
    (Hsummary : summaryModel env t = Throw e)
    (Hupload : uploadImagesToStorage env imgs
                 (str_catalog_prefix ++ number_to_string (now env)) = Ok urls)
    (Hadd : addDocError env (store w) = None)
    (Hload : getDocsError env
               (<[addDocId env (store w) :=
                  mkCatalogData (name file) (now env) pd rj t (Some []) (Some urls)]>
                  (store w)) = None) :
  let w' := run (handleFileChange env file) w in
  In (CallSummary t) (calls w') /\
  step (progress w') = done /\
  errorMsg (progress w') = None /\
  store w' = <[addDocId env (store w) :=
                 mkCatalogData (name file) (now env) pd rj t (Some []) (Some urls)]>
               (store w).
Proof.
  destruct imgs as [|i is]; [congruence|].
  pose proof (truthy_trim t Hnonblank) as Ht.
  unfold_run. rewrite Hread. cbn. rewrite Htext, Hjson. cbn.
  rewrite Ht, Hnonblank. cbn. rewrite Hsummary.
  destruct t as [|c t']; [discriminate|]. cbn.
  cbn in Hupload. rewrite Hupload. cbn. rewrite Hadd. cbn.
  rewrite_getDocs Hload. cbn.
  repeat split; try reflexivity.
  rewrite <- !app_assoc. apply in_or_app. right. simpl. tauto.
Qed.

Lemma summary_failure_not_fatal_witness :
  let env := demoEnv (Ok str_pages) (Ok ([demoCar], str_html))
               (Throw (ErrorE str_timeout)) (Throw NonErrorThrow) in
  let w' := run (handleFileChange env demoFile) initialWorld in
  step (progress w') = done /\
  store w' = <[[48] := mkCatalogData str_catalog_pdf 1700000000000 [demoCar]
                         str_html str_pages (Some []) (Some [str_example_url])]> ∅.
Proof.
  intros env w'.
  destruct (summary_failure_not_fatal env demoFile [str_page_image] initialWorld
              str_pages str_html [demoCar] (ErrorE str_timeout) [str_example_url]
              eq_refl ltac:(discriminate) eq_refl eq_refl eq_refl eq_refl
              eq_refl eq_refl eq_refl) as [_ [H2 [_ H4]]].
  split; [exact H2|exact H4].
Defined.

(** The URL path of the pipeline swallows a summary failure the same way:
    the record is saved with an empty summary and, when the catalog list is
    then reloaded, the run ends in [done]. *)
Lemma summary_failure_not_fatal_url (env : Env) (w : World)
    (url hostname html t rj : jsstr) (pd : list CarSpecification) (e : Exn)
    (response : Response)
    (Hurl : parseURL env url = Some hostname)
    (Hfetch : fetchProxy env url = Ok response)
    (Hok : ok response = true) (Hcontents : contents response = Ok html)
    (Hweb : extractCarDataFromWebPage env html url = Ok (pd, rj, t))
    (Hnonblank : truthy (trim t) = true)
    (Hsummary : summaryModel env t = Throw e)
    (Hadd : addDocError env (store w) = None)
    (Hload : getDocsError env
               (insert (addDocId env (store w))
                  (mkCatalogData hostname (now env) pd rj t (Some []) (Some []))
                  (store w)) = None) :
  let w' := run (handleUrlSubmit env url) w in
  step (progress w') = done /\
  errorMsg (progress w') = None /\
  store w' = insert (addDocId env (store w))
               (mkCatalogData hostname (now env) pd rj t (Some []) (Some []))
               (store w).
Proof.
  pose proof (truthy_trim t Hnonblank) as Ht.
  unfold_run. rewrite Hurl. cbn. rewrite Hfetch. cbn. rewrite Hok, Hcontents. cbn.
  rewrite Hweb. cbn. rewrite Ht, Hnonblank. cbn. rewrite Hsummary. cbn.
  rewrite Hadd. cbn. rewrite_getDocs Hload. cbn.
  repeat split; reflexivity.
Qed.

(** C3: a PDF run whose two branches are fulfilled with an empty
    text and an empty list. The tracker goes from [saving] with four
    completed steps to [error] with none: the guard before saving replaces
    the set by [new Set()], where the error paths at the [catch] blocks of
    [handleExtractData] keep [prev.completedSteps]. *)
Theorem progress_reset_on_empty_extraction :
  let env := demoEnv (Ok []) (Ok ([], [])) (Ok []) (Throw NonErrorThrow) in
  let tr := trace (run (handleFileChange env demoFile) initialWorld) in
  map (fun p => (step p, completedSteps p)) tr =
    [(reading, []); (converting, [reading]);
     (extractingText, [reading; converting]);
     (saving, [reading; converting; extractingText; extractingJson]);
     (error, [])] /\
  ~ consecutive_monotone tr.
Proof.
  intros env tr. split; [vm_compute; reflexivity|].
  intros Hmono.
  assert (Hsub := Hmono 3%nat _ _ eq_refl eq_refl). cbn in Hsub.
  assert (Hin : reading ∈ ([] : list ProgressStep))
    by (apply Hsub; left).
  exact (not_elem_of_nil reading Hin).
Qed.

(** C4 (as stated): deleting an identifier that is not in the store
    resolves successfully, in both stores; no NotFoundError is produced. *)
Lemma delete_missing_not_notfound :
  fst (deleteCatalog (demoEnv (Ok []) (Ok ([], [])) (Ok []) (Throw NonErrorThrow))
         [55] initialWorld) = Ok tt /\
  fst (IDB.deleteCatalog IDB.initial 7 None) = Ok tt.
Proof. split; reflexivity. Qed.

(** C4 (amended): neither store checks whether the identifier exists, so
    deleting an identifier that is not in the store never produces a
    NotFoundError. It resolves exactly when the backend's delete request
    succeeds, and otherwise rejects with the backend's own error; in both
    cases the store, and the rest of the state, are unchanged. This holds
    for the Firestore store and for the IndexedDB store. *)
Theorem delete_missing_succeeds (env : Env) (k : jsstr) (w : World)
    (s : IDB.IdbStore) (kn : Z) (reqError : option Exn)
    (Hmissing : store w !! k = None) (Hmissing_idb : IDB.recs s !! kn = None) :
  deleteCatalog env k w =
    (match deleteDocError env k (store w) with
     | None => Ok tt
     | Some e => Throw e
     end, w) /\
  IDB.deleteCatalog s kn reqError =
    (match reqError with
     | None => Ok tt
     | Some e => Throw e
     end, s).
Proof.
  split.
  - destruct w as [p tr st cs sel sv]. cbn in Hmissing |- *.
    unfold deleteCatalog, bind, getStore, setStore, ret. cbn.
    destruct (deleteDocError env k st); [reflexivity|].
    rewrite (delete_id st k Hmissing). reflexivity.
  - destruct s as [g r]. cbn in Hmissing_idb. unfold IDB.deleteCatalog. cbn.
    destruct reqError; [reflexivity|].
    rewrite (delete_id r kn Hmissing_idb). reflexivity.
Qed.

Lemma delete_missing_succeeds_witness :
  let env := demoEnv (Ok []) (Ok ([], [])) (Ok []) (Throw NonErrorThrow) in
  let d := mkCatalogData str_catalog_pdf 0 [demoCar] [] str_pages None None in
  let w := mkWorld (mkProgressState idle None []) [] (<[[48] := d]> ∅) [] None [] in
  let s := IDB.run_ops [IDB.OpSave d; IDB.OpSave d] in
  deleteCatalog env [55] w = (Ok tt, w) /\
  IDB.deleteCatalog s 7 None = (Ok tt, s) /\
  IDB.deleteCatalog s 7 (Some (ErrorE str_timeout)) = (Throw (ErrorE str_timeout), s).
Proof.
  intros env d w s.
  destruct (delete_missing_succeeds env [55] w s 7 None eq_refl eq_refl) as [H1 H2].
  destruct (delete_missing_succeeds env [55] w s 7 (Some (ErrorE str_timeout))
              eq_refl eq_refl) as [_ H3].
  split; [exact H1|]. split; [exact H2|exact H3].
Defined.

Lemma generateSummary_result_any_world (env : Env) (t : jsstr) (w1 w2 : World) :
  fst (generateSummary env t w1) = fst (generateSummary env t w2).
Proof. unfold generateSummary, bind, ret, issue. destruct (truthy (trim t)); reflexivity. Qed.

Lemma generateSummary_store (env : Env) (t : jsstr) (w : World) :
  store (snd (generateSummary env t w)) = store w.
Proof. unfold generateSummary, bind, ret, issue. destruct (truthy (trim t)); reflexivity. Qed.




#[global] Instance newer_first_total : Total newer_first.
Proof. intros a b. unfold newer_first. lia. Qed.

#[global] Instance key_ge_total : Total IDB.key_ge.
Proof. intros a b. unfold IDB.key_ge. lia. Qed.

Lemma keys_below_apply_op (s : IDB.IdbStore) (o : IDB.op) :
  keys_below s -> keys_below (IDB.apply_op s o).
Proof.
  unfold keys_below. intros H.
  destruct o as [c|kd reqError]; cbn.
  - apply map_Forall_insert_2; [cbn; lia|].
    eapply map_Forall_impl; [exact H|]. intros k x Hk. cbn in *. lia.
  - destruct reqError as [e|]; cbn; [exact H|].
    apply map_Forall_delete. exact H.
Qed.

Lemma keys_below_run_ops (ops : list IDB.op) : keys_below (IDB.run_ops ops).
Proof.
  unfold IDB.run_ops.
  assert (Hinit : keys_below IDB.initial) by apply map_Forall_empty.
  revert Hinit. generalize IDB.initial as s.
  induction ops as [|o ops IH]; intros s Hs; cbn; [exact Hs|].
  apply IH. apply keys_below_apply_op. exact Hs.
Qed.

(** C9: [listAll] returns every stored record, ordered by creation time,
    newest first. For the Firestore store the order is by [createdAt],
    descending; for the IndexedDB store it is by key, descending, and a
    record saved later always gets a larger key than every stored one. *)
Theorem listAll_newest_first :
  (forall st : gmap jsstr CatalogData,
     Sorted (fun a b => createdAt (body b) <= createdAt (body a)) (getAllCatalogs st) /\
     getAllCatalogs st ≡ₚ map (fun kd => mkCatalogRecord (fst kd) (snd kd)) (map_to_list st)) /\
  (forall s : IDB.IdbStore,
     Sorted (fun a b => fst b <= fst a) (IDB.getAllCatalogs s) /\
     IDB.getAllCatalogs s ≡ₚ map_to_list (IDB.recs s)) /\
  (forall (ops : list IDB.op) (c : CatalogData),
     Forall (fun k => k < fst (IDB.saveCatalog (IDB.run_ops ops) c))
       (map fst (map_to_list (IDB.recs (IDB.run_ops ops))))).
Proof.
  split; [|split].
  - intros st. unfold getAllCatalogs. split.
    + assert (Hs := Sorted_merge_sort newer_first (map_to_list st)).
      induction Hs as [|x l Hl IH Hhd]; cbn; constructor; [exact IH|].
      destruct Hhd as [|y l' Hxy]; constructor. exact Hxy.
    + apply Permutation_map. apply merge_sort_Permutation.
  - intros s. unfold IDB.getAllCatalogs, IDB.getAll. split.
    + exact (Sorted_merge_sort IDB.key_ge _).
    + rewrite merge_sort_Permutation. apply merge_sort_Permutation.
  - intros ops c. apply Forall_forall. intros k Hk.
    rewrite list_elem_of_In in Hk.
    apply in_map_iff in Hk as [[k' x] [Hk Hin]]. cbn in Hk. subst k'.
    rewrite <- list_elem_of_In, elem_of_map_to_list in Hin.
    exact (keys_below_run_ops ops k x Hin).
Qed.

(* ------------------------------------------------------------------ *)
(** ** Further properties of the code *)

Lemma in_getAllCatalogs (st : gmap jsstr CatalogData) (c : CatalogRecord) :
  In c (getAllCatalogs st) -> st !! id c = Some (body c).
Proof.
  unfold getAllCatalogs. intros Hin.
  apply in_map_iff in Hin as [[k d] [Hc Hin]]. subst c. cbn.
  apply list_elem_of_In in Hin.
  rewrite (merge_sort_Permutation newer_first (map_to_list st)) in Hin.
  apply elem_of_map_to_list in Hin. exact Hin.
Qed.


(** [handleDeleteCatalog]: a rejected delete rejects the handler and
    changes nothing. After a delete, the document is gone from the store
    and every other document is kept. If the reload then rejects, the
    handler rejects with that error and leaves the list, the selection and
    the tracker as they were. Otherwise it resolves: the reloaded list holds
    no record with that id, and the selection is cleared and the tracker
    reset exactly when the deleted record was the one shown. *)
Theorem handleDeleteCatalog_spec (env : Env) (docId : jsstr) (w : World) :
  let r := handleDeleteCatalog env docId w in
  let w' := snd r in
  (forall e, deleteDocError env docId (store w) = Some e -> r = (Throw e, w)) /\
  (deleteDocError env docId (store w) = None ->
     store w' = delete docId (store w) /\
     (forall e, getDocsError env (delete docId (store w)) = Some e ->
        fst r = Throw e /\ savedCatalogs w' = savedCatalogs w /\
        selectedCatalog w' = selectedCatalog w /\ progress w' = progress w) /\
     (getDocsError env (delete docId (store w)) = None ->
        fst r = Ok tt /\
        savedCatalogs w' = getAllCatalogs (delete docId (store w)) /\
        Forall (fun c => id c <> docId) (savedCatalogs w') /\
        (option_map id (selectedCatalog w) = Some docId ->
           selectedCatalog w' = None /\ progress w' = mkProgressState idle None []) /\
        (option_map id (selectedCatalog w) <> Some docId ->
           selectedCatalog w' = selectedCatalog w /\ progress w' = progress w))).
Proof.
  unfold handleDeleteCatalog, getSelectedCatalog, deleteCatalog, loadCatalogs,
    bind, ret, getStore, setStore, setSavedCatalogs, setSelectedCatalog, setProgress.
  cbn.
  assert (Hall : Forall (fun c => id c <> docId) (getAllCatalogs (delete docId (store w)))).
  { apply Forall_forall. intros c Hc%list_elem_of_In%in_getAllCatalogs Heq.
    rewrite Heq, lookup_delete_eq in Hc. discriminate. }
  destruct (deleteDocError env docId (store w)) as [e|] eqn:Hd.
  - split; [intros e' He'; injection He' as ->; destruct w; reflexivity|].
    intros; discriminate.
  - split; [intros; discriminate|]. intros _. cbn.
    destruct (getDocsError env (delete docId (store w))) as [e|] eqn:Hg; cbn.
    + split; [reflexivity|]. split.
      * intros e' He'. injection He' as <-. repeat split.
      * intros; discriminate.
    + destruct (decide (option_map id (selectedCatalog w) = Some docId)) as [Hs|Hs]; cbn;
        (split; [reflexivity|]; split; [intros; discriminate|]; intros _).
      * refine (conj eq_refl (conj eq_refl (conj Hall (conj _ _)))).
        -- intros _. split; reflexivity.
        -- intros Hn. contradiction.
      * refine (conj eq_refl (conj eq_refl (conj Hall (conj _ _)))).
        -- intros Hn. contradiction.
        -- intros _. split; reflexivity.
Qed.



#[global] Instance key_ge_trans : Transitive IDB.key_ge.
Proof. intros a b c. unfold IDB.key_ge. lia. Qed.

(** IndexedDB: on any store reached from the empty one by saves and
    deletes, a record just saved comes first in [getAllCatalogs], under the
    key [saveCatalog] returned. *)
Theorem idb_saved_listed_first (ops : list IDB.op) (c : CatalogData) :
  let '(k, s') := IDB.saveCatalog (IDB.run_ops ops) c in
  head (IDB.getAllCatalogs s') = Some (k, c).
Proof.
  pose proof (keys_below_run_ops ops) as Hb.
  revert Hb. generalize (IDB.run_ops ops) as s. intros s Hb.
  unfold IDB.saveCatalog.
  set (s' := IDB.mkIdbStore (IDB.keyGen s + 1) (<[IDB.keyGen s := c]> (IDB.recs s))).
  assert (Hperm : IDB.getAllCatalogs s' ≡ₚ map_to_list (IDB.recs s')).
  { unfold IDB.getAllCatalogs, IDB.getAll.
    rewrite merge_sort_Permutation. apply merge_sort_Permutation. }
  assert (Hsort : StronglySorted IDB.key_ge (IDB.getAllCatalogs s')).
  { apply Sorted_StronglySorted; [apply _|]. apply Sorted_merge_sort. apply _. }
  assert (Hin : (IDB.keyGen s, c) ∈ IDB.getAllCatalogs s').
  { rewrite Hperm. apply elem_of_map_to_list. cbn. apply lookup_insert_eq. }
  assert (Hmem : forall x, x ∈ IDB.getAllCatalogs s' ->
                 x = (IDB.keyGen s, c) \/ fst x < IDB.keyGen s).
  { intros [kx dx] Hx. rewrite Hperm, elem_of_map_to_list in Hx. cbn in Hx.
    destruct (decide (kx = IDB.keyGen s)) as [->|Hne].
    - rewrite lookup_insert_eq in Hx. injection Hx as <-. left. reflexivity.
    - rewrite lookup_insert_ne in Hx by congruence. right. exact (Hb kx dx Hx). }
  destruct (IDB.getAllCatalogs s') as [|x r] eqn:E.
  - apply not_elem_of_nil in Hin. contradiction.
  - cbn. f_equal.
    apply StronglySorted_inv in Hsort as [_ Hall].
    destruct (Hmem x (list_elem_of_here _ _)) as [Hx|Hx]; [exact Hx|].
    apply elem_of_cons in Hin as [Hin|Hin]; [subst x; cbn in Hx; lia|].
    rewrite Forall_forall in Hall. specialize (Hall _ Hin).
    unfold IDB.key_ge in Hall. cbn in Hall. lia.
Qed.

(** [handleSelectCatalog] on a record that already has a summary, or has
    no raw text: the record is shown as given, the tracker is reset to
    idle, and nothing is called or written. *)
Theorem handleSelectCatalog_no_generation (env : Env) (c : CatalogRecord) (w : World)
    (Hskip : summary_truthy (summary (body c)) = true \/
             truthy (rawText (body c)) = false) :
  let w' := run (handleSelectCatalog env c) w in
  selectedCatalog w' = Some c /\ progress w' = mkProgressState idle None [] /\
  store w' = store w /\ calls w' = calls w /\ savedCatalogs w' = savedCatalogs w.
Proof.
  unfold run, handleSelectCatalog, bind, setProgress, setSelectedCatalog.
  assert (Hb : negb (summary_truthy (summary (body c))) && truthy (rawText (body c)) = false).
  { destruct Hskip as [H|H]; rewrite H; [reflexivity|apply andb_false_r]. }
  rewrite Hb. cbn. repeat split.
Qed.

Lemma handleSelectCatalog_no_generation_witness :
  let c := mkCatalogRecord [48] (mkCatalogData str_catalog_pdf 0 [] [] str_pages
                                  (Some str_timeout) None) in
  selectedCatalog (run (handleSelectCatalog
                          (demoEnv (Ok []) (Ok ([], [])) (Ok []) (Throw NonErrorThrow))
                          c) initialWorld) = Some c.
Proof.
  intros c.
  destruct (handleSelectCatalog_no_generation
              (demoEnv (Ok []) (Ok ([], [])) (Ok []) (Throw NonErrorThrow)) c initialWorld
              (or_introl eq_refl)) as [H _].
  exact H.
Defined.

(** [handleSelectCatalog] on a record without summary but with raw text,
    when the summary cannot be written back (the model rejects, or the
    document is no longer in the store): the failure is swallowed, the
    store and the list are unchanged, and the record stays shown as
    given. *)
Theorem handleSelectCatalog_writeback_fails (env : Env) (c : CatalogRecord) (w : World)
    (Hnosummary : summary_truthy (summary (body c)) = false)
    (Hraw : truthy (rawText (body c)) = true)
    (Hfail : (exists e, fst (generateSummary env (rawText (body c)) w) = Throw e) \/
             store w !! id c = None) :
  let w' := run (handleSelectCatalog env c) w in
  store w' = store w /\ selectedCatalog w' = Some c /\
  savedCatalogs w' = savedCatalogs w.
Proof.
  unfold run, handleSelectCatalog, bind, setProgress, setSelectedCatalog.
  rewrite Hnosummary, Hraw. cbn.
  set (w1 := mkWorld _ _ _ _ _ _).
  assert (Hst1 : store w1 = store w) by reflexivity.
  assert (Hsel1 : selectedCatalog w1 = Some c) by reflexivity.
  assert (Hsv1 : savedCatalogs w1 = savedCatalogs w) by reflexivity.
  assert (Hfail1 : (exists e, fst (generateSummary env (rawText (body c)) w1) = Throw e) \/
                   store w1 !! id c = None).
  { rewrite Hst1, (generateSummary_result_any_world env _ w1 w). exact Hfail. }
  clearbody w1. clear Hfail.
  pose proof (generateSummary_store env (rawText (body c)) w1) as Hst2.
  assert (Hsel2 : selectedCatalog (snd (generateSummary env (rawText (body c)) w1)) =
                  selectedCatalog w1).
  { unfold generateSummary, bind, ret, issue. destruct (truthy (trim _)); reflexivity. }
  assert (Hsv2 : savedCatalogs (snd (generateSummary env (rawText (body c)) w1)) =
                 savedCatalogs w1).
  { unfold generateSummary, bind, ret, issue. destruct (truthy (trim _)); reflexivity. }
  destruct (generateSummary env (rawText (body c)) w1) as [r w2]. cbn in *.
  destruct r as [s|e].
  - destruct Hfail1 as [[e He]|Hnone]; [discriminate|].
    unfold updateCatalog, bind, getStore, ret. cbn.
    rewrite Hst2, Hnone. cbn. repeat split; congruence.
  - cbn. unfold ret. cbn. repeat split; congruence.
Qed.

Lemma handleSelectCatalog_writeback_fails_witness :
  let env := demoEnv (Ok []) (Ok ([], [])) (Ok str_timeout) (Throw NonErrorThrow) in
  let c := mkCatalogRecord [48] (mkCatalogData str_catalog_pdf 0 [] [] str_pages None None) in
  store (run (handleSelectCatalog env c) initialWorld) = store initialWorld /\
  selectedCatalog (run (handleSelectCatalog env c) initialWorld) = Some c.
Proof.
  intros env c.
  destruct (handleSelectCatalog_writeback_fails env c initialWorld eq_refl eq_refl
              (or_intror eq_refl)) as [H1 [H2 _]].
  split; [exact H1|exact H2].
Defined.

(** [fetchWebPageContent] on a URL that parses: exactly one proxy request is
    issued, for that URL; a response that is not [ok] rejects with the
    wrapped HTTP status, and an [ok] response gives its text. *)
Theorem fetchWebPageContent_valid_url (env : Env) (url host : jsstr) (w : World)
    (Hurl : parseURL env url = Some host) :
  calls (run (fetchWebPageContent env url) w) = calls w ++ [CallFetch url] /\
  store (run (fetchWebPageContent env url) w) = store w /\
  (forall resp, fetchProxy env url = Ok resp -> ok resp = false ->
     fst (fetchWebPageContent env url w) =
       Throw (ErrorE (msg_fetch_failed_prefix ++ msg_http_error_prefix
                      ++ number_to_string (status resp)))) /\
  (forall resp text, fetchProxy env url = Ok resp -> ok resp = true ->
     contents resp = Ok text ->
     fst (fetchWebPageContent env url w) = Ok text).
Proof.
  unfold run, fetchWebPageContent, bind, ret, issue. rewrite Hurl. cbn.
  repeat split.
  - intros resp Hf Hok. rewrite Hf, Hok. reflexivity.
  - intros resp text Hf Hok Hc. rewrite Hf, Hok, Hc. reflexivity.
Qed.

Lemma fetchWebPageContent_valid_url_witness :
  let env := mkEnv (fun _ => Ok []) (fun _ => Ok ([], [])) (fun _ => Ok [])
               (fun _ _ => Throw NonErrorThrow) (fun _ => Some str_example_host)
               (fun _ => Ok (mkResponse false 404 (Ok str_html)))
               (fun l _ => Ok l) (fun _ => []) (fun _ => None) (fun _ _ => None) (fun _ => None) 0 in
  fst (fetchWebPageContent env str_example_url initialWorld) =
    Throw (ErrorE (msg_fetch_failed_prefix ++ msg_http_error_prefix
                   ++ number_to_string 404)).
Proof.
  intros env.
  destruct (fetchWebPageContent_valid_url env str_example_url str_example_host
              initialWorld eq_refl) as [_ [_ [H _]]].
  exact (H (mkResponse false 404 (Ok str_html)) eq_refl eq_refl).
Defined.

(** [handleUrlSubmit] on a page that is fetched, extracted and saved: the
    one new document is named after the URL's host and has no images; the
    requests are the fetch, the page extraction, at most one summary call
    and the [addDoc] (no upload). When the catalog list is then reloaded,
    the new record is shown and the tracker ends at [done] with the three
    steps of the URL path; when the reload rejects, the document stays
    saved but no catalog is shown and the tracker ends in [error] with the
    reload's message and no completed step. *)
Theorem handleUrlSubmit_success (env : Env) (url host html : jsstr) (w : World)
    (resp : Response) (pd : list CarSpecification) (rj rt : jsstr)
    (Hurl : parseURL env url = Some host)
    (Hfetch : fetchProxy env url = Ok resp)
    (Hok : ok resp = true) (Hcont : contents resp = Ok html)
    (Hweb : extractCarDataFromWebPage env html url = Ok (pd, rj, rt))
    (Hadd : addDocError env (store w) = None) :
  let w' := run (handleUrlSubmit env url) w in
  exists s sc,
    let d := mkCatalogData host (now env) pd rj rt (Some s) (Some []) in
    store w' = <[addDocId env (store w) := d]> (store w) /\
    calls w' = calls w ++ [CallFetch url; CallExtractWebPage html url] ++ sc
                 ++ [CallAddDoc d] /\
    (sc = [] \/ sc = [CallSummary rt]) /\
    (getDocsError env (store w') = None ->
       selectedCatalog w' = Some (mkCatalogRecord (addDocId env (store w)) d) /\
       savedCatalogs w' = getAllCatalogs (store w') /\
       progress w' = mkProgressState done None [reading; extractingJson; saving]) /\
    (forall e, getDocsError env (store w') = Some e ->
       selectedCatalog w' = None /\ savedCatalogs w' = savedCatalogs w /\
       progress w' = mkProgressState error (Some (reasonMessage e msg_url_failed)) []).
Proof.
  unfold_run. rewrite Hurl. cbn. rewrite Hfetch, Hok, Hcont. cbn.
  rewrite Hweb. cbn.
  destruct (truthy rt); cbn.
  - destruct (truthy (trim rt)); cbn.
    + destruct (summaryModel env rt) as [r|e]; cbn; rewrite Hadd; cbn.
      * exists (trim r), [CallSummary rt]. rewrite <- !app_assoc.
        reload_destruct;
        (split; [reflexivity|split; [reflexivity|split; [auto|reload_cases]]]).
      * exists [], [CallSummary rt]. rewrite <- !app_assoc.
        reload_destruct;
        (split; [reflexivity|split; [reflexivity|split; [auto|reload_cases]]]).
    + rewrite Hadd. cbn.
      exists msg_no_summary_text, []. rewrite <- !app_assoc.
      reload_destruct;
        (split; [reflexivity|split; [reflexivity|split; [auto|reload_cases]]]).
  - rewrite Hadd. cbn.
    exists [], []. rewrite <- !app_assoc.
    reload_destruct;
        (split; [reflexivity|split; [reflexivity|split; [auto|reload_cases]]]).
Qed.

Lemma handleUrlSubmit_success_witness :
  let env := demoEnv (Ok []) (Ok ([], [])) (Ok str_timeout)
               (Ok ([demoCar], [], str_pages)) in
  let w' := run (handleUrlSubmit env str_example_url) initialWorld in
  exists s sc,
    let d := mkCatalogData str_example_host (now env) [demoCar] [] str_pages
               (Some s) (Some []) in
    store w' = <[addDocId env (store initialWorld) := d]> (store initialWorld) /\
    calls w' = calls initialWorld ++ [CallFetch str_example_url;
                                      CallExtractWebPage str_html str_example_url]
                 ++ sc ++ [CallAddDoc d] /\
    (sc = [] \/ sc = [CallSummary str_pages]) /\
    (getDocsError env (store w') = None ->
       selectedCatalog w' = Some (mkCatalogRecord (addDocId env (store initialWorld)) d) /\
       savedCatalogs w' = getAllCatalogs (store w') /\
       progress w' = mkProgressState done None [reading; extractingJson; saving]) /\
    (forall e, getDocsError env (store w') = Some e ->
       selectedCatalog w' = None /\ savedCatalogs w' = savedCatalogs initialWorld /\
       progress w' = mkProgressState error (Some (reasonMessage e msg_url_failed)) []).
Proof.
  exact (handleUrlSubmit_success
           (demoEnv (Ok []) (Ok ([], [])) (Ok str_timeout) (Ok ([demoCar], [], str_pages)))
           str_example_url str_example_host str_html initialWorld
           (mkResponse true 200 (Ok str_html)) [demoCar] [] str_pages
           eq_refl eq_refl eq_refl eq_refl eq_refl eq_refl).
Defined.

(** [handleFileChange] when no page image reaches the extraction: a file
    the [FileReader] cannot read leaves the tracker at [reading] with no
    completed step and no error (its [error] event has no handler); a
    pdf.js rejection inside [onload] leaves the tracker at [converting]
    with [reading] completed; a document without pages ends in the
    no-images error with no completed step. In each case no request is
    issued, the store is untouched and no catalog is shown. *)
Theorem handleFileChange_no_extraction (env : Env) (file : File) (w : World) :
  let w' := run (handleFileChange env file) w in
  let untouched := calls w' = calls w /\ store w' = store w /\
                   selectedCatalog w' = None in
  (rendered file = None ->
     untouched /\ progress w' = mkProgressState reading None []) /\
  (forall e, rendered file = Some (Throw e) ->
     untouched /\ progress w' = mkProgressState converting None [reading]) /\
  (rendered file = Some (Ok []) ->
     untouched /\ progress w' = mkProgressState error (Some msg_no_images) []).
Proof.
  unfold_run.
  destruct (rendered file) as [[imgs|e]|] eqn:Hr; cbn.
  - destruct imgs as [|i is]; cbn.
    + repeat split; intros; discriminate.
    + repeat split; intros; discriminate.
  - repeat split; intros; discriminate.
  - repeat split; intros; discriminate.
Qed.

(** [handleFileChange] on a PDF whose pages are rendered, both extraction
    branches resolve, the summary model answers, and the record is saved:
    the new document holds the file name, the trimmed summary and the
    uploaded image URLs. When the catalog list is then reloaded, the new
    record is shown, the list is the store's, and the tracker ends at
    [done] with all five steps of the PDF path completed and no error; when
    the reload rejects, the document stays saved but no catalog is shown,
    the list is unchanged and the tracker ends in [error] with the reload's
    message, keeping the four steps completed before saving. *)
Theorem handleFileChange_success (env : Env) (file : File) (imgs : list jsstr)
    (w : World) (t rj s : jsstr) (pd : list CarSpecification) (urls : list jsstr)
    (Hread : rendered file = Some (Ok imgs)) (Hne : imgs <> [])
    (Htext : extractRawTextFromImages env imgs = Ok t)
    (Hnonblank : truthy (trim t) = true)
    (Hjson : extractCarDataFromImages env imgs = Ok (pd, rj))
    (Hsummary : summaryModel env t = Ok s)
    (Hupload : uploadImagesToStorage env imgs
                 (str_catalog_prefix ++ number_to_string (now env)) = Ok urls)
    (Hadd : addDocError env (store w) = None) :
  let w' := run (handleFileChange env file) w in
  let d := mkCatalogData (name file) (now env) pd rj t (Some (trim s)) (Some urls) in
  store w' = <[addDocId env (store w) := d]> (store w) /\
  (getDocsError env (store w') = None ->
     selectedCatalog w' = Some (mkCatalogRecord (addDocId env (store w)) d) /\
     savedCatalogs w' = getAllCatalogs (store w') /\
     progress w' = mkProgressState done None
                     [reading; converting; extractingText; extractingJson; saving]) /\
  (forall e, getDocsError env (store w') = Some e ->
     selectedCatalog w' = None /\ savedCatalogs w' = savedCatalogs w /\
     progress w' = mkProgressState error (Some (reasonMessage e msg_db_save_failed))
                     [reading; converting; extractingText; extractingJson]).
Proof.
  destruct imgs as [|i is]; [congruence|].
  pose proof (truthy_trim t Hnonblank) as Ht.
  unfold_run. rewrite Hread. cbn. rewrite Htext, Hjson. cbn.
  rewrite Ht, Hnonblank. cbn. rewrite Hsummary.
  destruct t as [|c t']; [discriminate|]. cbn.
  cbn in Hupload. rewrite Hupload. cbn. rewrite Hadd.
  reload_destruct; (split; [reflexivity|reload_cases]).
Qed.

Lemma handleFileChange_success_witness :
  let env := demoEnv (Ok str_pages) (Ok ([demoCar], [])) (Ok str_timeout)
               (Throw NonErrorThrow) in
  let w' := run (handleFileChange env demoFile) initialWorld in
  getDocsError env (store w') = None /\
  progress w' = mkProgressState done None
                  [reading; converting; extractingText; extractingJson; saving].
Proof.
  intros env w'.
  destruct (handleFileChange_success env demoFile [str_page_image] initialWorld
              str_pages [] str_timeout [demoCar] [str_example_url]
              eq_refl ltac:(discriminate) eq_refl eq_refl eq_refl eq_refl eq_refl eq_refl)
    as [_ [H _]].
  split; [reflexivity|].
  exact (proj2 (proj2 (H eq_refl))).
Defined.

(** [handleFileChange] when both extraction branches resolve with something
    to save but the save rejects (an upload or the [addDoc] fails): the
    tracker ends in [error] with the rejection's message, keeping the four
    steps completed before saving; the store is untouched and no catalog is
    shown. *)
Theorem handleFileChange_save_fails (env : Env) (file : File) (imgs : list jsstr)
    (w : World) (t rj : jsstr) (pd : list CarSpecification) (e : Exn)
    (Hread : rendered file = Some (Ok imgs)) (Hne : imgs <> [])
    (Htext : extractRawTextFromImages env imgs = Ok t)
    (Hjson : extractCarDataFromImages env imgs = Ok (pd, rj))
    (Hsome : truthy t = true \/ pd <> [])
    (Hfail : uploadImagesToStorage env imgs
               (str_catalog_prefix ++ number_to_string (now env)) = Throw e \/
             (exists urls, uploadImagesToStorage env imgs
                 (str_catalog_prefix ++ number_to_string (now env)) = Ok urls /\
               addDocError env (store w) = Some e)) :
  let w' := run (handleFileChange env file) w in
  store w' = store w /\ selectedCatalog w' = None /\
  progress w' = mkProgressState error (Some (reasonMessage e msg_db_save_failed))
                  [reading; converting; extractingText; extractingJson].
Proof.
  destruct imgs as [|i is]; [congruence|].
  assert (Hgo : negb (truthy t) && (length pd =? 0)%nat = false).
  { destruct Hsome as [H|H]; [rewrite H; reflexivity|].
    destruct pd; [congruence|]. apply andb_false_r. }
  destruct Hfail as [Hu|[urls [Hu Ha]]]; cbn in Hu;
    unfold_run; rewrite Hread; cbn; rewrite Htext, Hjson; cbn;
    (destruct (truthy t) eqn:Ht; cbn;
     [destruct (truthy (trim t)); cbn; [destruct (summaryModel env t); cbn|]
     |cbn in Hgo; rewrite Hgo; cbn]);
    rewrite Hu; cbn; try (rewrite Ha; cbn); repeat split.
Qed.

Lemma handleFileChange_save_fails_witness :
  let env := mkEnv (fun _ => Ok str_pages) (fun _ => Ok ([demoCar], [])) (fun _ => Ok [])
               (fun _ _ => Throw NonErrorThrow) (fun _ => None)
               (fun _ => Throw NonErrorThrow)
               (fun _ _ => Throw (ErrorE str_rate_limited)) (fun _ => [])
               (fun _ => None) (fun _ _ => None) (fun _ => None) 0 in
  progress (run (handleFileChange env demoFile) initialWorld) =
    mkProgressState error (Some (reasonMessage (ErrorE str_rate_limited) msg_db_save_failed))
      [reading; converting; extractingText; extractingJson].
Proof.
  destruct (handleFileChange_save_fails
              (mkEnv (fun _ => Ok str_pages) (fun _ => Ok ([demoCar], [])) (fun _ => Ok [])
                 (fun _ _ => Throw NonErrorThrow) (fun _ => None)
                 (fun _ => Throw NonErrorThrow)
                 (fun _ _ => Throw (ErrorE str_rate_limited)) (fun _ => [])
                 (fun _ => None) (fun _ _ => None) (fun _ => None) 0)
              demoFile [str_page_image] initialWorld str_pages [] [demoCar]
              (ErrorE str_rate_limited)
              eq_refl ltac:(discriminate) eq_refl eq_refl (or_introl eq_refl)
              (or_introl eq_refl)) as [_ [_ H]].
  exact H.
Defined.

(** [FileUpload] and [UrlInput] are disabled exactly while a run is in one
    of its working steps: they are enabled at [idle], at [done] and after
    an [error]. *)
Theorem inputDisabled_working_steps (s : ProgressStep) :
  inputDisabled s = true <-> s ∈ [reading; converting; extractingText; extractingJson; saving].
Proof.
  rewrite !elem_of_cons, elem_of_nil.
  destruct s; cbn; split; intros H;
    try discriminate; try reflexivity; intuition discriminate.
Qed.

(** [handleCellChange]: with no catalog shown nothing changes; otherwise
    only the shown catalog changes: the store, the list, the requests and
    the tracker are untouched, the record keeps its id and its number of
    items, and every item with another id is kept as it was. *)
Theorem handleCellChange_local (cid : jsstr) (upd : CarSpecification -> CarSpecification)
    (w : World) :
  let w' := run (handleCellChange cid upd) w in
  store w' = store w /\ savedCatalogs w' = savedCatalogs w /\ calls w' = calls w /\
  progress w' = progress w /\
  (selectedCatalog w = None -> selectedCatalog w' = None) /\
  (forall c, selectedCatalog w = Some c ->
     exists c', selectedCatalog w' = Some c' /\ id c' = id c /\
       length (extractedData (body c')) = length (extractedData (body c)) /\
       (forall i item, extractedData (body c) !! i = Some item -> carId item <> cid ->
          extractedData (body c') !! i = Some item)).
Proof.
  unfold run, handleCellChange, getSelectedCatalog, bind, ret, setSelectedCatalog.
  destruct (selectedCatalog w) as [c|] eqn:Hs; cbn.
  - refine (conj eq_refl (conj eq_refl (conj eq_refl (conj eq_refl (conj _ _))))).
    { intros; discriminate. }
    intros c0 Hc. injection Hc as <-.
    eexists. split; [reflexivity|]. split; [reflexivity|]. cbn. split.
    + apply length_map.
    + intros i item Hi Hne. rewrite list_lookup_fmap, Hi. cbn.
      destruct (decide (carId item = cid)); [contradiction|reflexivity].
  - refine (conj eq_refl (conj eq_refl (conj eq_refl (conj eq_refl (conj _ _))))).
    + intros _; exact Hs.
    + intros; discriminate.
Qed.

(** [filteredData]: with no catalog shown it is empty; otherwise it keeps
    items of the shown catalog in their order, and every item kept matches
    each filter that is set: the exact fields, and for the option filter
    some option whose lower-case form contains the lower-case search. *)
Theorem filteredData_sound (toLowerCase : jsstr -> jsstr)
    (sel : option CatalogRecord) (f : Filters) :
  (sel = None -> filteredData toLowerCase sel f = []) /\
  (forall c, sel = Some c ->
     filteredData toLowerCase sel f `sublist_of` extractedData (body c) /\
     forall item, item ∈ filteredData toLowerCase sel f ->
       (truthy (fManufacturer f) = true -> manufacturer item = Some (fManufacturer f)) /\
       (truthy (fModelName f) = true -> modelName item = Some (fModelName f)) /\
       (truthy (fIssueDate f) = true -> issueDate item = Some (fIssueDate f)) /\
       (truthy (toLowerCase (fOption f)) = true ->
          exists opts opt, options item = Some opts /\ opt ∈ opts /\
            includes (toLowerCase opt) (toLowerCase (fOption f)) = true)).
Proof.
  assert (Hfm : forall flt v, field_matches flt v = true -> truthy flt = true -> v = Some flt).
  { unfold field_matches. intros flt v H Ht. rewrite Ht in H.
    apply bool_decide_eq_true in H. exact H. }
  split; [intros ->; reflexivity|].
  intros c ->. split; [apply sublist_filter|].
  intros item Hin. unfold filteredData in Hin.
  apply list_elem_of_filter in Hin as [Hp _].
  apply Is_true_true in Hp.
  apply andb_prop in Hp as [Hp Hopt]. apply andb_prop in Hp as [Hp Hid].
  apply andb_prop in Hp as [Hman Hmod].
  split; [intros; apply Hfm; assumption|].
  split; [intros; apply Hfm; assumption|].
  split; [intros; apply Hfm; assumption|].
  intros Ht. rewrite Ht in Hopt.
  destruct (options item) as [opts|]; [|discriminate].
  apply existsb_exists in Hopt as [opt [Hopt Hinc]].
  exists opts, opt. split; [reflexivity|]. split; [|exact Hinc].
  apply list_elem_of_In. exact Hopt.
Qed.

(** [filteredData] with no filter set is the whole item list of the shown
    catalog. *)
Theorem filteredData_no_filters (toLowerCase : jsstr -> jsstr) (c : CatalogRecord)
    (f : Filters)
    (Hm : fManufacturer f = []) (Hmo : fModelName f = []) (Hi : fIssueDate f = [])
    (Ho : toLowerCase (fOption f) = []) :
  filteredData toLowerCase (Some c) f = extractedData (body c).
Proof.
  unfold filteredData, field_matches. rewrite Hm, Hmo, Hi, Ho. cbn.
  induction (extractedData (body c)) as [|x l IH]; [reflexivity|].
  rewrite filter_cons, decide_True by exact I. f_equal. exact IH.
Qed.

Lemma filteredData_no_filters_witness :
  filteredData (fun s => s)
    (Some (mkCatalogRecord [48] (mkCatalogData str_catalog_pdf 0 [demoCar] [] [] None None)))
    (mkFilters [] [] [] []) = [demoCar].
Proof.
  exact (filteredData_no_filters (fun s => s)
           (mkCatalogRecord [48] (mkCatalogData str_catalog_pdf 0 [demoCar] [] [] None None))
           (mkFilters [] [] [] []) eq_refl eq_refl eq_refl eq_refl).
Defined.

Lemma includes_single (s : jsstr) (x : Z) : includes s [x] = existsb (Z.eqb x) s.
Proof.
  induction s as [|c s IH]; [reflexivity|].
  cbn [includes starts_with existsb]. rewrite andb_true_r, IH. reflexivity.
Qed.

Lemma read_plain_app (s rest : jsstr) :
  existsb (Z.eqb 44) s = false -> existsb (Z.eqb 10) s = false ->
  match rest with [] => True | c :: _ => c = 44 \/ c = 10 end ->
  read_plain (s ++ rest) = (s, rest).
Proof.
  induction s as [|c s IH]; cbn [app existsb]; intros H44 H10 Hr.
  - destruct rest as [|c r]; [reflexivity|]. cbn.
    destruct Hr as [-> | ->]; reflexivity.
  - apply orb_false_iff in H44 as [Hc44 H44]. apply orb_false_iff in H10 as [Hc10 H10].
    rewrite Z.eqb_sym in Hc44, Hc10. cbn [read_plain]. rewrite Hc44, Hc10. cbn [orb].
    rewrite IH by assumption. reflexivity.
Qed.

Lemma read_quoted_double_quotes (s rest : jsstr) :
  match rest with [] => True | c :: _ => c <> 34 end ->
  read_quoted (double_quotes s ++ 34 :: rest) = (s, rest).
Proof.
  intros Hr. induction s as [|a s IH].
  - cbn. destruct rest as [|c r]; [reflexivity|].
    destruct (Z.eqb_spec c 34); [contradiction|reflexivity].
  - unfold double_quotes in *. cbn [map concat].
    destruct (Z.eqb_spec a 34) as [->|Hne].
    + cbn [app read_quoted Z.eqb Pos.eqb]. rewrite IH. reflexivity.
    + cbn [app read_quoted]. apply Z.eqb_neq in Hne. rewrite Hne. rewrite IH. reflexivity.
Qed.

Lemma read_field_plain (s : jsstr) :
  match s with [] => True | c :: _ => c <> 34 end -> read_field s = read_plain s.
Proof.
  destruct s as [|c r]; [reflexivity|]. cbn. intros Hc.
  destruct (Z.eqb_spec c 34); [contradiction|reflexivity].
Qed.

Lemma escapeCsvCell_cell_to_string (c : CellValue) :
  escapeCsvCell c =
    if csv_special (cell_to_string c)
    then 34 :: double_quotes (cell_to_string c) ++ [34] else cell_to_string c.
Proof. destruct c; reflexivity. Qed.

Lemma read_field_escapeCsvCell (c : CellValue) (rest : jsstr) :
  match rest with [] => True | c :: _ => c = 44 \/ c = 10 end ->
  read_field (escapeCsvCell c ++ rest) = (cell_to_string c, rest).
Proof.
  rewrite escapeCsvCell_cell_to_string. generalize (cell_to_string c) as str.
  intros str Hr. destruct (csv_special str) eqn:Hs.
  - cbn [app read_field Z.eqb Pos.eqb]. rewrite <- app_assoc. cbn [app].
    apply read_quoted_double_quotes. destruct rest as [|x r]; [exact I|].
    destruct Hr as [-> | ->]; discriminate.
  - unfold csv_special in Hs. rewrite !includes_single in Hs.
    apply orb_false_iff in Hs as [Hs H10]. apply orb_false_iff in Hs as [H44 H34].
    rewrite read_field_plain; [apply read_plain_app; assumption|].
    destruct str as [|a s'].
    + destruct rest as [|x r]; [exact I|]. cbn. destruct Hr as [-> | ->]; discriminate.
    + cbn [existsb] in H34. cbn [app]. apply orb_false_iff in H34 as [H34 _].
      apply Z.eqb_neq in H34. congruence.
Qed.

Lemma join_with_cons2 (sep : Z) (x y : jsstr) (l : list jsstr) :
  join_with sep (x :: y :: l) = x ++ sep :: join_with sep (y :: l).
Proof. reflexivity. Qed.

Lemma join_with_length (sep : Z) (l : list jsstr) :
  (length l <= S (length (join_with sep l)))%nat.
Proof.
  induction l as [|x [|y l] IH]; [cbn; lia|cbn; lia|].
  rewrite join_with_cons2, length_app. cbn [length] in *. lia.
Qed.

Lemma read_row_cells (cells : list CellValue) (c0 : CellValue) (rest : jsstr) (fuel : nat) :
  (length cells <= fuel)%nat -> (rest = [] \/ exists r, rest = 10 :: r) ->
  read_row fuel (join_with 44 (map escapeCsvCell (c0 :: cells)) ++ rest) =
    (map cell_to_string (c0 :: cells),
     match rest with [] => [] | _ :: r => r end,
     match rest with [] => false | _ :: _ => true end).
Proof.
  intros Hfuel Hrest.
  assert (Hend : match rest with [] => True | c :: _ => c = 44 \/ c = 10 end).
  { destruct Hrest as [->|[r ->]]; [exact I|right; reflexivity]. }
  revert c0 fuel Hfuel. induction cells as [|c1 cs IH]; intros c0 fuel Hfuel.
  - cbn [map join_with concat]. rewrite app_nil_r.
    destruct fuel as [|fuel']; cbn [read_row]; rewrite read_field_escapeCsvCell by exact Hend;
      destruct Hrest as [->|[r ->]]; reflexivity.
  - destruct fuel as [|fuel']; [cbn in Hfuel; lia|].
    change (map escapeCsvCell (c0 :: c1 :: cs))
      with (escapeCsvCell c0 :: escapeCsvCell c1 :: map escapeCsvCell cs).
    rewrite join_with_cons2, <- app_assoc. cbn [app read_row].
    rewrite read_field_escapeCsvCell by (left; reflexivity).
    cbn [Z.eqb Pos.eqb].
    change (escapeCsvCell c1 :: map escapeCsvCell cs) with (map escapeCsvCell (c1 :: cs)).
    rewrite IH by (cbn in Hfuel; lia). reflexivity.
Qed.

Lemma read_rows_cells (rows : list (list CellValue)) (r0 : list CellValue) (fuel : nat) :
  (length rows <= fuel)%nat -> Forall (fun r => r <> []) (r0 :: rows) ->
  read_rows fuel (join_with 10 (map (fun r => join_with 44 (map escapeCsvCell r)) (r0 :: rows))) =
    map (map cell_to_string) (r0 :: rows).
Proof.
  revert r0 fuel. induction rows as [|r1 rs IH]; intros r0 fuel Hfuel Hne.
  - apply Forall_cons in Hne as [Hr0 _].
    destruct r0 as [|c0 cs]; [contradiction|].
    change (join_with 10 (map (fun r => join_with 44 (map escapeCsvCell r)) [c0 :: cs]))
      with (join_with 44 (map escapeCsvCell (c0 :: cs)) ++ []).
    assert (Hl : (length cs <= length (join_with 44 (map escapeCsvCell (c0 :: cs)) ++ []))%nat).
    { pose proof (join_with_length 44 (map escapeCsvCell (c0 :: cs))) as H.
      rewrite length_map, length_app in *. cbn [length] in *. lia. }
    destruct fuel as [|fuel']; cbn [read_rows];
      rewrite (read_row_cells cs c0 [] _ Hl (or_introl eq_refl)); reflexivity.
  - apply Forall_cons in Hne as [Hr0 Hne].
    destruct r0 as [|c0 cs]; [contradiction|].
    destruct fuel as [|fuel']; [cbn in Hfuel; lia|].
    set (rowstr := fun r => join_with 44 (map escapeCsvCell r)).
    change (map rowstr ((c0 :: cs) :: r1 :: rs)) with (rowstr (c0 :: cs) :: map rowstr (r1 :: rs)).
    change (map rowstr (r1 :: rs)) with (rowstr r1 :: map rowstr rs).
    rewrite join_with_cons2.
    change (rowstr r1 :: map rowstr rs) with (map rowstr (r1 :: rs)).
    set (tl := join_with 10 (map rowstr (r1 :: rs))).
    assert (Hl : (length cs <= length (rowstr (c0 :: cs) ++ 10%Z :: tl))%nat).
    { pose proof (join_with_length 44 (map escapeCsvCell (c0 :: cs))) as H.
      unfold rowstr. rewrite length_map, length_app in *. cbn [length] in *. lia. }
    cbn [read_rows].
    unfold rowstr in Hl |- *.
    rewrite (read_row_cells cs c0 (10 :: tl) _ Hl (or_intror (ex_intro _ tl eq_refl))).
    cbn [map]. f_equal.
    unfold tl, rowstr. apply IH; [cbn in Hfuel; lia|exact Hne].
Qed.

(** [exportToCsv]: the CSV content it writes reads back (as RFC 4180) into
    the header row followed, for each item, by [String(row[key])] for each
    key (an empty cell for [null] or [undefined]): the escaping of commas,
    quotes and line feeds loses nothing. The header row is written without
    escaping, so this holds for headers free of those characters. *)
Theorem exportToCsv_reads_back (data : list CarSpecification) (headers : list jsstr)
    (keys : list CarKey)
    (Hh : headers <> []) (Hk : keys <> [])
    (Hplain : Forall (fun h => csv_special h = false) headers) :
  read_csv (exportToCsv_content data headers keys) =
    headers :: map (fun row => map (fun k => cell_to_string (cell_of row k)) keys) data.
Proof.
  assert (Hhead : join_with 44 headers =
                  join_with 44 (map escapeCsvCell (map CellString headers))).
  { f_equal. clear Hh Hk. induction Hplain as [|h hs Hh' _ IH]; [reflexivity|].
    cbn [map]. unfold escapeCsvCell at 1. cbn [cell_to_string]. rewrite Hh'.
    f_equal. exact IH. }
  assert (Hcontent : exportToCsv_content data headers keys =
    join_with 10 (map (fun r => join_with 44 (map escapeCsvCell r))
                    (map CellString headers :: map (fun row => map (cell_of row) keys) data))).
  { unfold exportToCsv_content. rewrite Hhead. cbn [map]. f_equal. f_equal.
    rewrite map_map. apply map_ext. intros row. rewrite map_map. reflexivity. }
  unfold read_csv. rewrite Hcontent.
  rewrite read_rows_cells.
  - cbn [map]. f_equal.
    + rewrite map_map. cbn. apply map_id.
    + rewrite map_map. apply map_ext. intros row. rewrite map_map. reflexivity.
  - pose proof (join_with_length 10
      (map (fun r => join_with 44 (map escapeCsvCell r))
         (map CellString headers :: map (fun row => map (cell_of row) keys) data))) as H.
    rewrite length_map in H. cbn [length] in H. lia.
  - constructor.
    + destruct headers; [contradiction|discriminate].
    + apply Forall_forall. intros r Hr. apply list_elem_of_In, in_map_iff in Hr.
      destruct Hr as [row [<- _]]. destruct keys; [contradiction|discriminate].
Qed.

Lemma exportToCsv_reads_back_witness :
  read_csv (exportToCsv_content [demoCar] [[104]; [112]] [KId; KPrice]) =
    [[104]; [112]] :: [[[49]; number_to_string 3000000]].
Proof.
  exact (exportToCsv_reads_back [demoCar] [[104]; [112]] [KId; KPrice]
           ltac:(discriminate) ltac:(discriminate)
           ltac:(repeat constructor)).
Defined.

(** [escapeCsvCell] loses nothing: two cells with the same escaped text
    have the same unescaped text ([cell_to_string]: the empty string for
    [null] and [undefined], [String(cell)] otherwise). *)
Theorem escapeCsvCell_injective (c1 c2 : CellValue)
    (Heq : escapeCsvCell c1 = escapeCsvCell c2) :
  cell_to_string c1 = cell_to_string c2.
Proof.
  pose proof (read_field_escapeCsvCell c1 [] I) as H1.
  pose proof (read_field_escapeCsvCell c2 [] I) as H2.
  rewrite Heq, H2 in H1. injection H1 as H1. symmetry. exact H1.
Qed.

Lemma escapeCsvCell_injective_witness :
  escapeCsvCell (CellStrings [[97]; [98]]) = escapeCsvCell (CellString [97; 44; 98]) /\
  cell_to_string (CellStrings [[97]; [98]]) = cell_to_string (CellString [97; 44; 98]).
Proof.
  split; [reflexivity|].
  exact (escapeCsvCell_injective (CellStrings [[97]; [98]]) (CellString [97; 44; 98])
           eq_refl).
Defined.

(** [handleUrlSubmit] when the proxy answers with an HTTP error: the run
    stops after the one fetch (no extraction, no summary, no save), the
    store is untouched, and the tracker ends in [error] with the wrapped
    status and no completed step. *)
Theorem handleUrlSubmit_http_error (env : Env) (url host : jsstr) (w : World)
    (resp : Response)
    (Hurl : parseURL env url = Some host)
    (Hfetch : fetchProxy env url = Ok resp) (Hok : ok resp = false) :
  let w' := run (handleUrlSubmit env url) w in
  calls w' = calls w ++ [CallFetch url] /\ store w' = store w /\
  selectedCatalog w' = None /\
  progress w' = mkProgressState error
                  (Some (reasonMessage (ErrorE (msg_fetch_failed_prefix ++ msg_http_error_prefix
                                                ++ number_to_string (status resp)))
                           msg_url_failed)) [].
Proof.
  unfold_run. rewrite Hurl. cbn. rewrite Hfetch, Hok. cbn.
  repeat split.
Qed.

Lemma handleUrlSubmit_http_error_witness :
  let env := mkEnv (fun _ => Ok []) (fun _ => Ok ([], [])) (fun _ => Ok [])
               (fun _ _ => Throw NonErrorThrow) (fun _ => Some str_example_host)
               (fun _ => Ok (mkResponse false 503 (Ok str_html)))
               (fun l _ => Ok l) (fun _ => []) (fun _ => None) (fun _ _ => None) (fun _ => None) 0 in
  calls (run (handleUrlSubmit env str_example_url) initialWorld) = [CallFetch str_example_url].
Proof.
  intros env.
  destruct (handleUrlSubmit_http_error env str_example_url str_example_host initialWorld
              (mkResponse false 503 (Ok str_html)) eq_refl eq_refl eq_refl) as [H _].
  exact H.
Defined.
